(** * Job-placement front end: wizard, sites directory, dashboard, contact form

    A shallow embedding of the state handling of four React components
    (MultiStepForm.tsx, SitesPage.tsx, the dashboard component and
    ContactPage.tsx) together with the properties their specification
    states about them.

    Conventions of the embedding:
    - a component's [useState] cells are the fields of a record, and an
      event handler is a function from the record to the record;
    - an [await]ed request is resolved by the environment: the handler takes
      the [Outcome] of the request as an argument, and a handler that is
      suspended at an [await] is split into the part before and the part
      after it where a claim depends on the state in between;
    - a JavaScript exception is [None] in the [option] monad, and
      [try ... catch] is a match on it;
    - values of TypeScript type [any] (server responses) are [JS.value]s;
      strings are [string]s, one character standing for one code unit. *)

From Stdlib Require Import ZArith List String Ascii Bool Lia Sorted DecimalString.
Import ListNotations.

Open Scope string_scope.
Open Scope Z_scope.

(* ================================================================== *)
(** * Part I: the embedding *)
(* ================================================================== *)

(** ** JavaScript values and the operators the handlers apply to them *)

Module JS.

(** JSON-shaped run-time values.  [Num] carries the integral numbers the
    program compares against (status codes); objects keep their fields in
    order, the first binding of a key being the visible one. *)
#[local] Unset Elimination Schemes.
Inductive value : Type :=
| Undefined
| Null
| Bool (b : bool)
| Num (n : Z)
| Str (s : string)
| Arr (items : list value)
| Obj (fields : list (string * value)).
#[local] Set Elimination Schemes.

(** Truthiness of a string: every string but the empty one. *)
Definition nonEmpty (s : string) : bool := negb (s =? "")%string.

(** [ToBoolean]. *)
Definition truthy (v : value) : bool :=
  match v with
  | Undefined | Null => false
  | Bool b => b
  | Num n => negb (n =? 0)
  | Str s => nonEmpty s
  | Arr _ | Obj _ => true
  end.

(** [a || b] on values that are already evaluated. *)
Definition orElse (a b : value) : value := if truthy a then a else b.

(** [Array.isArray]. *)
Definition isArray (v : value) : bool :=
  match v with Arr _ => true | _ => false end.

Fixpoint lookup (k : string) (fields : list (string * value)) : option value :=
  match fields with
  | [] => None
  | (k', v) :: rest => if (k =? k')%string then Some v else lookup k rest
  end.

(** [v.k] for the keys the components read ([ok], [status], [results],
    [data], [error], ...): none of them is a property of an array or of a
    primitive, so only objects answer with something other than
    [undefined].  Reading a property of [null] or [undefined] throws. *)
Definition get (v : value) (k : string) : option value :=
  match v with
  | Undefined | Null => None
  | Obj fields =>
      Some (match lookup k fields with Some x => x | None => Undefined end)
  | _ => Some Undefined
  end.

(** [v?.[0]]: short-circuits on [null] and [undefined], otherwise the
    element at index 0 (of an array, of a string, or the property "0"). *)
Definition optFirst (v : value) : value :=
  match v with
  | Arr (x :: _) => x
  | Str (String c _) => Str (String c "")
  | Obj fields => match lookup "0" fields with Some x => x | None => Undefined end
  | _ => Undefined
  end.

(** [v?.k]. *)
Definition optGet (v : value) (k : string) : value :=
  match get v k with Some x => x | None => Undefined end.

(** [v === n] for a number literal [n]. *)
Definition strictEqNum (v : value) (n : Z) : bool :=
  match v with Num m => m =? n | _ => false end.

(** [String(v)], as [localStorage.setItem] applies it to what it is
    given.  Numbers are the integers that a double holds exactly and
    prints in full; an array prints its elements separated by commas,
    [null] and [undefined] among them as nothing; an object prints as
    "[object Object]". *)
Fixpoint toString (v : value) : string :=
  match v with
  | Undefined => "undefined"
  | Null => "null"
  | Bool true => "true"
  | Bool false => "false"
  | Num n => NilZero.string_of_int (Z.to_int n)
  | Str s => s
  | Arr items =>
      (fix join (l : list value) : string :=
         match l with
         | [] => ""
         | x :: rest =>
             (match x with Undefined | Null => "" | _ => toString x end)
             ++ match rest with [] => "" | _ :: _ => "," ++ join rest end
         end) items
  | Obj _ => "[object Object]"
  end.

(** What a handler sees when an awaited request settles. *)
Inductive Outcome : Type :=
| Rejected                      (* the promise rejects: control enters [catch] *)
| Resolved (res : value).       (* the promise resolves to [res] *)

(** Sequencing of computations that may throw. *)
Definition bind {A B : Type} (m : option A) (k : A -> option B) : option B :=
  match m with Some a => k a | None => None end.

(** [try { body } catch { handler }] where [body] yields the next state. *)
Definition tryCatch {A : Type} (body : option A) (handler : A) : A :=
  match body with Some a => a | None => handler end.

End JS.

Notation "x <- m ;; k" := (JS.bind m (fun x => k))
  (at level 61, m at next level, right associativity).

(** ** MultiStepForm.tsx: the two-step application wizard *)

Module Wizard.

Record ApplicationData : Type := mkData {
  first_name : string;
  last_name : string;
  username : string;
  email : string;
  phone_number : string;
  password : option string;        (* [password?: string] *)
  age : string;
  country : string;
  desiredJob : string;
  desiredStartDate : string
}.

Definition initialData : ApplicationData :=
  mkData "" "" "" "" "" (Some "") "" "" "" "".

(** [Partial<ApplicationData>]: a field that is present overrides. *)
Record Patch : Type := mkPatch {
  p_first_name : option string;
  p_last_name : option string;
  p_username : option string;
  p_email : option string;
  p_phone_number : option string;
  p_password : option (option string);
  p_age : option string;
  p_country : option string;
  p_desiredJob : option string;
  p_desiredStartDate : option string
}.

Definition override {A : Type} (old : A) (new : option A) : A :=
  match new with Some v => v | None => old end.

(** [update]: [setData(d => ({ ...d, ...patch }))]. *)
Definition update (patch : Patch) (d : ApplicationData) : ApplicationData :=
  mkData
    (override (first_name d) (p_first_name patch))
    (override (last_name d) (p_last_name patch))
    (override (username d) (p_username patch))
    (override (email d) (p_email patch))
    (override (phone_number d) (p_phone_number patch))
    (override (password d) (p_password patch))
    (override (age d) (p_age patch))
    (override (country d) (p_country patch))
    (override (desiredJob d) (p_desiredJob patch))
    (override (desiredStartDate d) (p_desiredStartDate patch)).

Definition emptyPatch : Patch :=
  mkPatch None None None None None None None None None None.

(** The patches the inputs of the form produce. *)
Definition onFirstName (v : string) : Patch :=
  mkPatch (Some v) None None None None None None None None None.
Definition onLastName (v : string) : Patch :=
  mkPatch None (Some v) None None None None None None None None.
Definition onUsername (v : string) : Patch :=
  mkPatch None None (Some v) None None None None None None None.
Definition onEmail (v : string) : Patch :=
  mkPatch None None None (Some v) None None None None None None.
Definition onPhone (v : string) : Patch :=
  mkPatch None None None None (Some v) None None None None None.
Definition onPassword (v : string) : Patch :=
  mkPatch None None None None None (Some (Some v)) None None None None.
Definition onAge (v : string) : Patch :=
  mkPatch None None None None None None (Some v) None None None.
Definition onCountry (v : string) : Patch :=   (* resets the job *)
  mkPatch None None None None None None None (Some v) (Some "") None.
Definition onDesiredJob (v : string) : Patch :=
  mkPatch None None None None None None None None (Some v) None.
Definition onStartDate (v : string) : Patch :=
  mkPatch None None None None None None None None None (Some v).

(** The component's state cells. *)
Record State : Type := mkState {
  data : ApplicationData;
  step : Z;
  isLoading : bool;
  error : JS.value;                (* [string | null] *)
  showPassword : bool
}.

Definition total : Z := 2.

Definition initialState : State := mkState initialData 1 false JS.Null false.

Definition setData (f : ApplicationData -> ApplicationData) (s : State) : State :=
  mkState (f (data s)) (step s) (isLoading s) (error s) (showPassword s).
Definition setStep (f : Z -> Z) (s : State) : State :=
  mkState (data s) (f (step s)) (isLoading s) (error s) (showPassword s).
Definition setIsLoading (b : bool) (s : State) : State :=
  mkState (data s) (step s) b (error s) (showPassword s).
Definition setError (e : JS.value) (s : State) : State :=
  mkState (data s) (step s) (isLoading s) e (showPassword s).
Definition setShowPassword (b : bool) (s : State) : State :=
  mkState (data s) (step s) (isLoading s) (error s) b.

Definition next (s : State) : State := setStep (fun n => Z.min total (n + 1)) s.
Definition back (s : State) : State := setStep (fun n => Z.max 1 (n - 1)) s.

(** [data.password && data.password.length >= 8]. *)
Definition passwordOk (p : option string) : bool :=
  match p with
  | Some pw => JS.nonEmpty pw && (8 <=? Z.of_nat (String.length pw))
  | None => false
  end.

Definition validStep (s : State) : bool :=
  let d := data s in
  if step s =? 1 then
    JS.nonEmpty (first_name d) && JS.nonEmpty (last_name d) &&
    JS.nonEmpty (username d) && JS.nonEmpty (email d) &&
    passwordOk (password d) &&
    JS.nonEmpty (phone_number d) && JS.nonEmpty (age d)
  else if step s =? 2 then
    JS.nonEmpty (country d) && JS.nonEmpty (desiredJob d) &&
    JS.nonEmpty (desiredStartDate d)
  else false.

(** What the render function makes of the three buttons. *)
Definition backDisabled (s : State) : bool := (step s =? 1) || isLoading s.
Definition nextRendered (s : State) : bool := step s <? total.
Definition nextDisabled (s : State) : bool := negb (validStep s) || isLoading s.
Definition submitRendered (s : State) : bool := step s =? total.
Definition submitDisabled (s : State) : bool := negb (validStep s) || isLoading s.

Definition genericFailure : string :=
  "Failed to submit application. Please check your details and try again.".
Definition unexpectedFailure : string :=
  "An unexpected error occurred. Please try again later.".

(** [res.error || res.username?.[0] || res.email?.[0] || '...'], evaluated
    left to right with short-circuiting. *)
Definition errorMessage (res : JS.value) : option JS.value :=
  e <- JS.get res "error" ;;
  if JS.truthy e then Some e else
  u <- JS.get res "username" ;;
  if JS.truthy (JS.optFirst u) then Some (JS.optFirst u) else
  m <- JS.get res "email" ;;
  if JS.truthy (JS.optFirst m) then Some (JS.optFirst m) else
  Some (JS.Str genericFailure).

(** Where the router is after the wizard's handlers ran. *)
Inductive Location : Type :=
| AtWizard
| AtPayment (draftId : JS.value) (email_ : string)
            (applicationData : ApplicationData) (userId : JS.value).

(** The component together with what its handlers reach outside it:
    the request in flight ([pending] holds the [data] the running
    [onSubmit] closed over), local storage, the auth token, the router. *)
Record World : Type := mkWorld {
  ui : State;
  pending : option ApplicationData;
  localStorage : list (string * JS.value);
  authToken : JS.value;
  location : Location
}.

Definition initialWorld : World := mkWorld initialState None [] JS.Null AtWizard.

Definition withUi (f : State -> State) (w : World) : World :=
  mkWorld (f (ui w)) (pending w) (localStorage w) (authToken w) (location w).

(** [localStorage.setItem(k, v)]: the storage holds strings, so what is
    kept under [k] is [String(v)]. *)
Fixpoint setItem (k : string) (v : JS.value) (st : list (string * JS.value))
  : list (string * JS.value) :=
  match st with
  | [] => [(k, JS.Str (JS.toString v))]
  | (k', v') :: rest =>
      if (k =? k')%string then (k, JS.Str (JS.toString v)) :: rest
      else (k', v') :: setItem k v rest
  end.

(** [onSubmit] up to its [await]. *)
Definition onSubmit_begin (w : World) : World :=
  mkWorld (setError JS.Null (setIsLoading true (ui w)))
          (Some (data (ui w))) (localStorage w) (authToken w) (location w).

(** The success branch: tokens to storage and to the auth context, then
    the navigation to the payment page.  (The auth context's user object
    is not part of this model.) *)
Definition onSuccess (d : ApplicationData) (res : JS.value) (w : World)
  : option World :=
  tok <- JS.get res "token" ;;
  acc <- JS.get res "access" ;;
  let token := JS.orElse tok acc in
  refresh <- JS.get res "refresh" ;;
  draft <- JS.get res "draft_id" ;;
  user <- JS.get res "user" ;;
  let storage :=
    if JS.truthy token then
      let st1 := setItem "auth_access_token" token (localStorage w) in
      if JS.truthy refresh then setItem "auth_refresh_token" refresh st1 else st1
    else localStorage w in
  Some (mkWorld (ui w) (pending w) storage
          (if JS.truthy token then token else authToken w)
          (AtPayment (JS.orElse draft (JS.Str "temp")) (email d) d
                     (JS.optGet user "id"))).

(** The body of [try] after the [await]. *)
Definition onSubmit_try (d : ApplicationData) (o : JS.Outcome) (w : World)
  : option World :=
  match o with
  | JS.Rejected => None
  | JS.Resolved res =>
      ok <- JS.get res "ok" ;;
      status <- JS.get res "status" ;;
      if JS.truthy ok || JS.strictEqNum status 201 then onSuccess d res w
      else
        msg <- errorMessage res ;;
        Some (withUi (setError msg) w)
  end.

(** [onSubmit] from its [await] on: [try], [catch], [finally]. *)
Definition onSubmit_settle (d : ApplicationData) (o : JS.Outcome) (w : World)
  : World :=
  let w1 := JS.tryCatch (onSubmit_try d o w)
              (withUi (setError (JS.Str unexpectedFailure)) w) in
  withUi (setIsLoading false) w1.

(** What the user and the network can do to the mounted component. *)
Inductive Event : Type :=
| Edit (patch : Patch)
| ToggleShowPassword
| ClickBack
| ClickNext
| ClickSubmit
| SubmitSettled (o : JS.Outcome).

Definition clearPending (w : World) : World :=
  mkWorld (ui w) None (localStorage w) (authToken w) (location w).

(** A click reaches its handler only on a button that is rendered and not
    disabled; once the router has left the wizard nothing reaches it. *)
Definition handle (e : Event) (w : World) : World :=
  match location w with
  | AtPayment _ _ _ _ => w
  | AtWizard =>
      match e with
      | Edit patch => withUi (setData (update patch)) w
      | ToggleShowPassword =>
          withUi (fun s => setShowPassword (negb (showPassword s)) s) w
      | ClickBack => if backDisabled (ui w) then w else withUi back w
      | ClickNext =>
          if nextRendered (ui w) && negb (nextDisabled (ui w))
          then withUi next w else w
      | ClickSubmit =>
          if submitRendered (ui w) && negb (submitDisabled (ui w))
          then onSubmit_begin w else w
      | SubmitSettled o =>
          match pending w with
          | Some d => onSubmit_settle d o (clearPending w)
          | None => w
          end
      end
  end.

Definition run (evs : list Event) (w : World) : World :=
  fold_left (fun acc e => handle e acc) evs w.

(** The [next] and [back] updaters on their own, without the buttons. *)
Inductive Move : Type := MNext | MBack.

Definition move (m : Move) (s : State) : State :=
  match m with MNext => next s | MBack => back s end.

Definition moves (ms : list Move) (s : State) : State :=
  fold_left (fun acc m => move m acc) ms s.

(** Step 1 is complete: the six text fields are filled in and the
    password has at least eight characters. *)
Definition step1Complete (d : ApplicationData) : Prop :=
  first_name d <> "" /\ last_name d <> "" /\ username d <> "" /\
  email d <> "" /\ phone_number d <> "" /\ age d <> "" /\
  exists pw, password d = Some pw /\ (8 <= String.length pw)%nat.

(** The displayed error as the specification words it: the first
    available among the server's candidates, else the generic message. *)
Definition firstAvailable (candidates : list JS.value) (fallback : JS.value)
  : JS.value :=
  match find JS.truthy candidates with Some v => v | None => fallback end.

Definition serverCandidates (res : JS.value) : list JS.value :=
  [ JS.optGet res "error";
    JS.optFirst (JS.optGet res "username");
    JS.optFirst (JS.optGet res "email") ].

(** The events of a run that brought the wizard to step 2, split at the
    click that did it. *)
Definition EnteredStep2 (evs pre post : list Event) : Prop :=
  evs = (pre ++ ClickNext :: post)%list /\
  step (ui (run pre initialWorld)) = 1 /\
  step1Complete (data (ui (run pre initialWorld))) /\
  nextDisabled (ui (run pre initialWorld)) = false /\
  step (ui (run (pre ++ [ClickNext])%list initialWorld)) = 2 /\
  (forall post1 post2, post = (post1 ++ post2)%list ->
     step (ui (run (pre ++ ClickNext :: post1)%list initialWorld)) = 2).

(** A user who fills in step 1 and clicks Next. *)
Definition fillStep1 : list Event :=
  [ Edit (onFirstName "Abebe"); Edit (onLastName "Bikila");
    Edit (onUsername "abebe"); Edit (onEmail "abebe@example.org");
    Edit (onPassword "marathon60"); Edit (onPhone "+251911000000");
    Edit (onAge "28") ].

(** The claim C7 as written: beyond step 1 the Back button is never
    disabled and a click on it takes one step back. *)
Definition BackAlwaysEnabled : Prop :=
  forall w : World,
    location w = AtWizard -> 1 < step (ui w) ->
    backDisabled (ui w) = false /\
    step (ui (handle ClickBack w)) = step (ui w) - 1.

(** A user who completes both steps and submits; the request is in flight. *)
Definition submitting : list Event :=
  (fillStep1 ++
  [ ClickNext; Edit (onCountry "Poland"); Edit (onDesiredJob "Cleaner");
    Edit (onStartDate "2026-03"); ClickSubmit ])%list.

(** A rejected registration as the backend words it. *)
Definition usernameTaken : JS.value :=
  JS.Obj [ ("ok", JS.Bool false); ("status", JS.Num 400);
        ("username", JS.Arr [JS.Str "A user with that username already exists."]);
        ("email", JS.Arr [JS.Str "Enter a valid email address."]) ].

End Wizard.

(** ** SitesPage.tsx: the sites directory *)

Module SitesPage.

Record JobSite : Type := mkSite {
  id : Z;
  country : string;
  site_name : string;
  site_url : string
}.

(** [URLSearchParams]: the pairs in order. *)
Definition SearchParams : Type := list (string * string).

(** [searchParams.get(name)]: the first value under [name], or [null]. *)
Fixpoint paramsGet (name : string) (ps : SearchParams) : option string :=
  match ps with
  | [] => None
  | (k, v) :: rest => if (name =? k)%string then Some v else paramsGet name rest
  end.

(** The state cells the handlers below read and write, and the query
    string the router holds for the page. *)
Record State : Type := mkState {
  selectedCountry : string;
  sites : list JobSite;
  searchQuery : string;
  searchParams : SearchParams
}.

Definition setSelectedCountry (c : string) (s : State) : State :=
  mkState c (sites s) (searchQuery s) (searchParams s).
Definition setSearchParams (ps : SearchParams) (s : State) : State :=
  mkState (selectedCountry s) (sites s) (searchQuery s) ps.
Definition setSearchQuery (q : string) (s : State) : State :=
  mkState (selectedCountry s) (sites s) q (searchParams s).
Definition setSites (l : list JobSite) (s : State) : State :=
  mkState (selectedCountry s) l (searchQuery s) (searchParams s).

(** [useState(searchParams.get('country') || 'all')]. *)
Definition initialSelected (ps : SearchParams) : string :=
  match paramsGet "country" ps with
  | Some c => if JS.nonEmpty c then c else "all"
  | None => "all"
  end.

Definition mount (ps : SearchParams) : State :=
  mkState (initialSelected ps) [] "" ps.

Definition handleCountryChange (country : string) (s : State) : State :=
  let s1 := setSelectedCountry country s in
  if JS.nonEmpty country && negb (country =? "all")%string
  then setSearchParams [("country", country)] s1
  else setSearchParams [] s1.

(** The if-chain of [loadSitesForCountry] and of [loadAllSites] (the two
    are the same): the value of [jobSites] when it ends. *)
Definition parseJobSites (res : JS.value) : option JS.value :=
  results <- JS.get res "results" ;;
  if JS.truthy results && JS.isArray results then Some results else
  data <- JS.get res "data" ;;
  if JS.truthy data && JS.isArray data then Some data else
  if JS.isArray res then Some res else
  ok <- JS.get res "ok" ;;
  status <- JS.get res "status" ;;
  if JS.truthy ok || JS.strictEqNum status 200 then Some (JS.Arr [])
  else Some (JS.Arr []).

(** What [loadSitesForCountry] and [loadAllSites] hand to [setSites]:
    the parsed value, or [[]] from the [catch] block. *)
Definition loadedSites (o : JS.Outcome) : JS.value :=
  JS.tryCatch
    (match o with
     | JS.Rejected => None
     | JS.Resolved res => parseJobSites res
     end)
    (JS.Arr []).

(** [s.includes(q)]: [q] occurs in [s] at some position. *)
Fixpoint includes (s q : string) : bool :=
  String.prefix q s ||
  match s with
  | EmptyString => false
  | String _ rest => includes rest q
  end.

Section WithToLowerCase.

(** [String.prototype.toLowerCase]. *)
Variable toLowerCase : string -> string.

(** The predicate handed to [sites.filter]. *)
Definition matchesQuery (searchQuery : string) (site : JobSite) : bool :=
  if negb (JS.nonEmpty searchQuery) then true else
  let query := toLowerCase searchQuery in
  includes (toLowerCase (site_name site)) query ||
  includes (toLowerCase (country site)) query ||
  includes (toLowerCase (site_url site)) query.

Definition filteredSites (s : State) : list JobSite :=
  filter (matchesQuery (searchQuery s)) (sites s).

End WithToLowerCase.

(** [toLowerCase] on the letters A to Z; other characters are kept. *)
Definition lowerAsciiChar (c : ascii) : ascii :=
  let n := nat_of_ascii c in
  if ((65 <=? n) && (n <=? 90))%nat then ascii_of_nat (n + 32) else c.

Fixpoint lowerAscii (s : string) : string :=
  match s with
  | EmptyString => EmptyString
  | String c rest => String (lowerAsciiChar c) (lowerAscii rest)
  end.

(** The specification's words: a string occurs in another one, and does
    so when case is ignored. *)
Definition Occurs (q s : string) : Prop :=
  exists before after, s = (before ++ q ++ after)%string.

Definition OccursIgnoringCase (lower : string -> string) (q s : string) : Prop :=
  Occurs (lower q) (lower s).

Definition Matches (lower : string -> string) (q : string) (site : JobSite) : Prop :=
  OccursIgnoringCase lower q (site_name site) \/
  OccursIgnoringCase lower q (country site) \/
  OccursIgnoringCase lower q (site_url site).

(** [Selects P l l']: [l'] is [l] with exactly the elements that satisfy
    [P] kept, in their order and as often as they occur. *)
Inductive Selects {A : Type} (P : A -> Prop) : list A -> list A -> Prop :=
| Selects_nil : Selects P [] []
| Selects_keep x l l' : P x -> Selects P l l' -> Selects P (x :: l) (x :: l')
| Selects_drop x l l' : ~ P x -> Selects P l l' -> Selects P (x :: l) l'.

(** The response parser as the specification words it. *)
Definition tolerantParse (res : JS.value) : JS.value :=
  if JS.isArray (JS.optGet res "results") then JS.optGet res "results"
  else if JS.isArray (JS.optGet res "data") then JS.optGet res "data"
  else if JS.isArray res then res
  else JS.Arr [].

Definition eurojobs : JobSite := mkSite 1 "Poland" "EuroJobs" "https://eurojobs.example/pl".
Definition pracuj : JobSite := mkSite 2 "Poland" "Pracuj" "https://pracuj.example".
Definition stepstone : JobSite := mkSite 3 "Germany" "StepStone" "https://stepstone.example/de".

Definition directory (q : string) : State :=
  mkState "all" [eurojobs; pracuj; stepstone] q [].

(** The claim C2 as written: after the handler the parameter [country] is
    the selection, and it is absent exactly for the selection "all". *)
Definition ParamTracksSelection : Prop :=
  forall (c : string) (s : State),
    let s' := handleCountryChange c s in
    (c <> "all"%string -> paramsGet "country" (searchParams s') = Some c) /\
    (paramsGet "country" (searchParams s') = None <-> c = "all"%string).

End SitesPage.

(** ** The dashboard *)

Module Dashboard.

Inductive Location : Type :=
| AtDashboard
| NavigatedTo (url : string).

(** The state cells the toggle reads and writes ([sites] and [allSites]
    hold whatever the responses carried), and where the router is. *)
Record State : Type := mkState {
  country : string;
  sites : JS.value;
  allSites : JS.value;
  showAllCountries : bool;
  loading : bool;
  location : Location
}.

Definition initialState : State :=
  mkState "" (JS.Arr []) (JS.Arr []) false true AtDashboard.

Definition setSites (v : JS.value) (s : State) : State :=
  mkState (country s) v (allSites s) (showAllCountries s) (loading s) (location s).
Definition setAllSites (v : JS.value) (s : State) : State :=
  mkState (country s) (sites s) v (showAllCountries s) (loading s) (location s).
Definition setShowAllCountries (b : bool) (s : State) : State :=
  mkState (country s) (sites s) (allSites s) b (loading s) (location s).
Definition setLoading (b : bool) (s : State) : State :=
  mkState (country s) (sites s) (allSites s) (showAllCountries s) b (location s).
Definition navigate (url : string) (s : State) : State :=
  mkState (country s) (sites s) (allSites s) (showAllCountries s) (loading s)
          (NavigatedTo url).

Definition displaySites (s : State) : JS.value :=
  if showAllCountries s then allSites s else sites s.

(** [res.results || res.data || (Array.isArray(res) ? res : [])]. *)
Definition viewAllParse (res : JS.value) : option JS.value :=
  results <- JS.get res "results" ;;
  if JS.truthy results then Some results else
  data <- JS.get res "data" ;;
  if JS.truthy data then Some data else
  Some (if JS.isArray res then res else JS.Arr []).

(** The [try] block of the branch that fetches the dashboard again. *)
Definition refetch_try (o : JS.Outcome) (s : State) : option State :=
  match o with
  | JS.Rejected => None
  | JS.Resolved dashboardRes =>
      ok <- JS.get dashboardRes "ok" ;;
      if JS.truthy ok then
        job_sites <- JS.get dashboardRes "job_sites" ;;
        Some (setSites (JS.orElse job_sites (JS.Arr [])) s)
      else Some s
  end.

(** The [try] block of the branch that fetches all sites. *)
Definition viewAll_try (o : JS.Outcome) (s : State) : option State :=
  match o with
  | JS.Rejected => None
  | JS.Resolved res =>
      ok <- JS.get res "ok" ;;
      s' <- (if JS.truthy ok then
               jobSites <- viewAllParse res ;;
               Some (setAllSites jobSites s)
             else Some s) ;;
      Some (setShowAllCountries true s')
  end.

Section WithEncodeURIComponent.

Variable encodeURIComponent : string -> string.

Definition handleViewCountry (countryName : string) (s : State) : State :=
  navigate ("/sites?country=" ++ encodeURIComponent countryName) s.

(** The click on the toggle.  [o] is the outcome of the one request the
    handler awaits (none is made on the path that navigates).  In both
    [try] blocks everything that can throw comes before the first state
    update, so [catch] resumes from the state the [try] was entered in. *)
Definition handleViewAllCountries (o : JS.Outcome) (s : State) : State :=
  if showAllCountries s then
    let s1 := setShowAllCountries false s in
    if JS.nonEmpty (country s) then handleViewCountry (country s) s1
    else
      let s2 := setLoading true s1 in
      setLoading false (JS.tryCatch (refetch_try o s2) s2)
  else
    let s1 := setLoading true s in
    setLoading false (JS.tryCatch (viewAll_try o s1) s1).

End WithEncodeURIComponent.

(** [encodeURIComponent] on the strings it leaves alone: those made of
    letters, digits and the marks - _ . ! ~ * ' ( ). *)
Definition encodeUnreserved (s : string) : string := s.

(** The claim C3 as written: two clicks on the toggle bring back the
    displayed sites, the flag and the page. *)
Definition ToggleTwiceRestores (enc : string -> string) : Prop :=
  forall (s : State) (o1 o2 : JS.Outcome),
    let s' := handleViewAllCountries enc o2 (handleViewAllCountries enc o1 s) in
    displaySites s' = displaySites s /\
    showAllCountries s' = showAllCountries s /\
    location s' = location s.

Definition pracujSite : JS.value :=
  JS.Obj [ ("id", JS.Num 2); ("country", JS.Str "Poland"); ("site_name", JS.Str "Pracuj");
        ("site_url", JS.Str "https://pracuj.example") ].
Definition stepstoneSite : JS.value :=
  JS.Obj [ ("id", JS.Num 3); ("country", JS.Str "Germany"); ("site_name", JS.Str "StepStone");
        ("site_url", JS.Str "https://stepstone.example/de") ].

(** A dashboard after its mount, for a user registered for Poland. *)
Definition mounted : State :=
  mkState "Poland" (JS.Arr [pracujSite]) (JS.Arr []) false false AtDashboard.

Definition allSitesResponse : JS.value :=
  JS.Obj [ ("ok", JS.Bool true); ("results", JS.Arr [pracujSite; stepstoneSite]) ].

End Dashboard.

(** ** ContactPage.tsx: the contact form *)

Module ContactPage.

Record FormData : Type := mkForm {
  name : string;
  email : string;
  subject : string;
  message : string
}.

Definition emptyForm : FormData := mkForm "" "" "" "".

Record State : Type := mkState {
  formData : FormData;
  loading : bool;
  success : bool;
  error : JS.value                 (* [string | null] *)
}.

Definition initialState : State := mkState emptyForm false false JS.Null.

Definition setFormData (f : FormData) (s : State) : State :=
  mkState f (loading s) (success s) (error s).
Definition setLoading (b : bool) (s : State) : State :=
  mkState (formData s) b (success s) (error s).
Definition setSuccess (b : bool) (s : State) : State :=
  mkState (formData s) (loading s) b (error s).
Definition setError (e : JS.value) (s : State) : State :=
  mkState (formData s) (loading s) (success s) e.

(** A timer registered with [setTimeout]: the delay in milliseconds and
    what the callback does to the component when it runs. *)
Record Timer : Type := mkTimer {
  delay : Z;
  callback : State -> State
}.

Record World : Type := mkWorld {
  ui : State;
  timers : list Timer
}.

Definition initialWorld : World := mkWorld initialState [].

Definition withUi (f : State -> State) (w : World) : World :=
  mkWorld (f (ui w)) (timers w).

Definition setTimeout (cb : State -> State) (ms : Z) (w : World) : World :=
  mkWorld (ui w) (timers w ++ [mkTimer ms cb])%list.

(** The [Response] of [fetch]: its status, and what [response.json()]
    resolves to ([None] when it rejects). *)
Record Response : Type := mkResponse {
  status : Z;
  json : option JS.value
}.

(** [response.ok]: the status is in the range 200 to 299. *)
Definition ok (r : Response) : bool := (200 <=? status r) && (status r <=? 299).

Inductive FetchOutcome : Type :=
| FetchRejected
| FetchResolved (r : Response).

Definition sendFailed : string := "Failed to send message. Please try again.".
Definition networkError : string :=
  "Network error. Please check your connection and try again.".

(** The [name] attributes of the four inputs. *)
Inductive Field : Type := FName | FEmail | FSubject | FMessage.

(** [handleChange]: [{ ...prev, [e.target.name]: e.target.value }]. *)
Definition handleChange (field : Field) (value : string) (s : State) : State :=
  let f := formData s in
  match field with
  | FName => setFormData (mkForm value (email f) (subject f) (message f)) s
  | FEmail => setFormData (mkForm (name f) value (subject f) (message f)) s
  | FSubject => setFormData (mkForm (name f) (email f) value (message f)) s
  | FMessage => setFormData (mkForm (name f) (email f) (subject f) value) s
  end.

(** [handleSubmit] up to its first [await]. *)
Definition handleSubmit_begin (w : World) : World :=
  withUi (fun s => setSuccess false (setError JS.Null (setLoading true s))) w.

(** The body of [try] from the [await] on. *)
Definition handleSubmit_try (o : FetchOutcome) (w : World) : option World :=
  match o with
  | FetchRejected => None
  | FetchResolved response =>
      if ok response then
        let w1 := withUi (setSuccess true) w in
        let w2 := withUi (setFormData (mkForm "" "" "" "")) w1 in
        Some (setTimeout (setSuccess false) 5000 w2)
      else
        data <- json response ;;
        msg <- JS.get data "message" ;;
        Some (withUi (setError (JS.orElse msg (JS.Str sendFailed))) w)
  end.

(** [handleSubmit] from its first [await] on: [try], [catch], [finally]. *)
Definition handleSubmit_settle (o : FetchOutcome) (w : World) : World :=
  let w1 := JS.tryCatch (handleSubmit_try o w)
              (withUi (setError (JS.Str networkError)) w) in
  withUi (setLoading false) w1.

(** A submission whose request settles before anything else happens. *)
Definition handleSubmit (o : FetchOutcome) (w : World) : World :=
  handleSubmit_settle o (handleSubmit_begin w).

(** The fields the markup marks [required]. *)
Definition requiredPopulated (f : FormData) : bool :=
  JS.nonEmpty (name f) && JS.nonEmpty (email f) && JS.nonEmpty (message f).

(** A submission fails: the request is rejected or answered outside 2xx. *)
Definition Failed (o : FetchOutcome) : Prop :=
  match o with
  | FetchRejected => True
  | FetchResolved r => ~ (200 <= status r <= 299)
  end.

(** The banner is up, the form is empty, nothing is loading, and one
    more timer waits: 5000 ms, to take the banner down. *)
Definition SuccessShown (before after : World) : Prop :=
  formData (ui after) = mkForm "" "" "" "" /\
  success (ui after) = true /\
  loading (ui after) = false /\
  exists t, timers after = (timers before ++ [t])%list /\
            delay t = 5000 /\
            forall s, callback t s = setSuccess false s.

Definition enquiry : World :=
  mkWorld (mkState (mkForm "Abebe Bikila" "abebe@example.org" "Visa"
                           "Which documents do I need?") false false JS.Null) [].

End ContactPage.

(** ** MultiStepForm.tsx: the form as the render function offers it *)

Module WizardUI.
Import Wizard.

(** The job options by country. *)
Definition jobsByCountry : list (string * list string) :=
  [ ("Poland", ["Warehouse Worker"; "Factory Line Operator";
                "Agricultural Laborer (Farm Worker)"; "Construction Helper";
                "Cleaner"; "Kitchen Assistant"]);
    ("Germany", ["Logistics/Warehouse Assistant"; "Construction Laborer";
                 "Caregiver/Support Worker"; "Cleaning Staff";
                 "Food Processing Line Worker"]);
    ("Netherlands", ["Greenhouse Worker (Horticulture)";
                     "Warehouse/Logistics Assistant"; "Factory Line Operator"]);
    ("Spain", ["Seasonal Agricultural Worker (Fruit Picker)";
               "Hotel Housekeeping"; "Industrial Cleaner"; "Delivery Worker"]);
    ("Italy", ["Seasonal Farm Worker (Agriculture)";
               "Hospitality (Kitchen Assistant, Housekeeping)"]);
    ("Luxembourg", ["Cleaning Staff"; "Construction Laborer";
                    "Warehouse/Factory Worker"; "Kitchen Helper"]) ]%list.

(** The values of the country radio group. *)
Definition countryOptions : list string :=
  ["Poland"; "Germany"; "Netherlands"; "Spain"; "Italy"; "Luxembourg"]%list.

(** [jobsByCountry[country]], for the countries the radio group can set. *)
Fixpoint jobsFor (country : string) (table : list (string * list string))
  : option (list string) :=
  match table with
  | [] => None
  | (c, jobs) :: rest => if (country =? c)%string then Some jobs else jobsFor country rest
  end.

(** The values of the job radio group: the jobs of the country, then
    "Other".  The group is there only when a country is chosen. *)
Definition jobOptions (d : ApplicationData) : list string :=
  if JS.nonEmpty (country d) then
    match jobsFor (country d) jobsByCountry with
    | Some jobs => (jobs ++ ["Other"])%list
    | None => []
    end
  else [].

Inductive Input : Type :=
| FirstName | LastName | Username | Email | Password | Phone | Age
| Country | DesiredJob | StartDate.

Definition patchOf (i : Input) (v : string) : Patch :=
  match i with
  | FirstName => onFirstName v
  | LastName => onLastName v
  | Username => onUsername v
  | Email => onEmail v
  | Password => onPassword v
  | Phone => onPhone v
  | Age => onAge v
  | Country => onCountry v
  | DesiredJob => onDesiredJob v
  | StartDate => onStartDate v
  end.

Definition oneOf (v : string) (options : list string) : bool :=
  existsb (String.eqb v) options.

(** Whether the form, as rendered in state [s], lets the user give input
    [i] the value [v]: the inputs of step 1 are there at step 1 only,
    those of step 2 at step 2 only, and a radio group gives one of its
    options. *)
Definition offered (i : Input) (v : string) (s : State) : bool :=
  match i with
  | Country => (step s =? 2) && oneOf v countryOptions
  | DesiredJob => (step s =? 2) && oneOf v (jobOptions (data s))
  | StartDate => step s =? 2
  | _ => step s =? 1
  end.

(** What the user and the network do to the rendered form. *)
Inductive UIEvent : Type :=
| Enter (i : Input) (v : string)
| PressEye
| PressBack
| PressNext
| PressSubmit
| Response (o : JS.Outcome).

Definition toEvent (u : UIEvent) (w : World) : option Event :=
  match u with
  | Enter i v => if offered i v (ui w) then Some (Edit (patchOf i v)) else None
  | PressEye => Some ToggleShowPassword
  | PressBack => Some ClickBack
  | PressNext => Some ClickNext
  | PressSubmit => Some ClickSubmit
  | Response o => Some (SubmitSettled o)
  end.

Definition handleUI (u : UIEvent) (w : World) : World :=
  match toEvent u w with
  | Some e => handle e w
  | None => w
  end.

Definition runUI (us : list UIEvent) (w : World) : World :=
  fold_left (fun acc u => handleUI u acc) us w.

(** Both steps are complete. *)
Definition Complete (d : ApplicationData) : Prop :=
  step1Complete d /\
  country d <> "" /\ desiredJob d <> "" /\ desiredStartDate d <> "".

(** The country is one of the radio group's (or none yet), and the job is
    one the form offers for that country (or none yet). *)
Definition JobFits (d : ApplicationData) : Prop :=
  (country d = "" \/ In (country d) countryOptions) /\
  (desiredJob d = "" \/ In (desiredJob d) (jobOptions d)).

(** What the form keeps true of a world: the step is 1 or 2, step 2 is
    only shown over a complete step 1, the job fits the country, and the
    data of a request in flight or handed to the payment page is complete
    and fitting. *)
Definition Sound (w : World) : Prop :=
  1 <= step (ui w) <= 2 /\
  (step (ui w) = 2 -> step1Complete (data (ui w))) /\
  JobFits (data (ui w)) /\
  (forall p, pending w = Some p -> Complete p /\ JobFits p) /\
  (forall draft em p uid,
     location w = AtPayment draft em p uid ->
     Complete p /\ JobFits p /\ em = email p).

(** The loading flag is up exactly while a request is in flight. *)
Definition SingleFlight (w : World) : Prop :=
  isLoading (ui w) = match pending w with Some _ => true | None => false end.

(** A response the handler cannot read: none at all, or [null]. *)
Definition Unreadable (o : JS.Outcome) : Prop :=
  o = JS.Rejected \/ o = JS.Resolved JS.Null \/ o = JS.Resolved JS.Undefined.

(** A user who goes through the whole form. *)
Definition fillsEverything : list UIEvent :=
  [ Enter FirstName "Abebe"; Enter LastName "Bikila"; Enter Username "abebe";
    Enter Email "abebe@example.org"; Enter Password "marathon60";
    Enter Phone "+251911000000"; Enter Age "28"; PressNext;
    Enter Country "Poland"; Enter DesiredJob "Cleaner";
    Enter StartDate "2026-03" ]%list.

(** A registration that succeeded, with both tokens. *)
Definition registered : JS.value :=
  JS.Obj [ ("ok", JS.Bool true); ("status", JS.Num 201);
           ("access", JS.Str "access-1"); ("refresh", JS.Str "refresh-1");
           ("draft_id", JS.Num 7);
           ("user", JS.Obj [("id", JS.Num 42)]) ]%list.

End WizardUI.

(** ** SitesPage.tsx: the effects and the list of countries *)

Module SitesEffects.
Import SitesPage.

(** The requests the page sends: [fetchPopularCountries()], and
    [fetchJobSites(country)] with or without its argument. *)
Inductive Request : Type :=
| FetchPopularCountries
| FetchJobSites (country : option string).

(** The effect on [selectedCountry]: [loadSitesForCountry] for a country,
    [loadAllSites] for "all" or none. *)
Definition loadSites (s : State) : Request :=
  if JS.nonEmpty (selectedCountry s) && negb (selectedCountry s =? "all")%string
  then FetchJobSites (Some (selectedCountry s))
  else FetchJobSites None.

(** The first effect, run once: it reads the parameter, corrects the
    selection if it differs, and loads all sites when there is no
    parameter. *)
Definition readCountryParam (s : State) : State * list Request :=
  let countryParam := paramsGet "country" (searchParams s) in
  let countryValue :=
    match countryParam with
    | Some c => if JS.nonEmpty c then c else "all"
    | None => "all"
    end in
  let s1 := if negb (countryValue =? selectedCountry s)%string
            then setSelectedCountry countryValue s else s in
  let requests :=
    match countryParam with
    | Some c => if JS.nonEmpty c then [] else [FetchJobSites None]
    | None => [FetchJobSites None]
    end in
  (s1, requests).

(** The effect on [selectedCountry] runs again after a render in which
    the selection differs from the one before. *)
Definition onSelectionChange (before after : State) : list Request :=
  if (selectedCountry after =? selectedCountry before)%string then []
  else [loadSites after].

(** The mount of the page on the query string [ps]: the three effects in
    the order they are declared, then the effect on the selection once
    more if the first effect changed it. *)
Definition onMount (ps : SearchParams) : State * list Request :=
  let s0 := mount ps in
  let (s1, first) := readCountryParam s0 in
  (s1, first ++ [FetchPopularCountries; loadSites s0] ++ onSelectionChange s0 s1)%list.

(** A change of the selector, and the requests the next render sends. *)
Definition onSelect (c : string) (s : State) : State * list Request :=
  let s' := handleCountryChange c s in
  (s', onSelectionChange s s').

(** [[...new Set(l)]]: the first occurrence of each string, in order. *)
Fixpoint dedupe (l : list string) : list string :=
  match l with
  | [] => []
  | x :: rest => x :: filter (fun y => negb (y =? x)%string) (dedupe rest)
  end.

Fixpoint insertSorted (x : string) (l : list string) : list string :=
  match l with
  | [] => [x]
  | y :: rest => if String.leb x y then x :: y :: rest else y :: insertSorted x rest
  end.

(** [l.sort()]: ascending by code units.  The lists sorted below hold no
    string twice, so every sorting procedure orders them alike. *)
Fixpoint sort (l : list string) : list string :=
  match l with
  | [] => []
  | x :: rest => insertSorted x (sort rest)
  end.

(** [uniqueCountries] in [loadAllSites]. *)
Definition uniqueCountries (jobSites : list JobSite) : list string :=
  sort (dedupe (filter JS.nonEmpty (map country jobSites))).

(** What [loadAllSites] makes of the selector's countries [prev] when it
    has loaded [jobSites]. *)
Definition mergeCountries (prev : list string) (jobSites : list JobSite)
  : list string :=
  match jobSites with
  | [] => prev
  | _ :: _ => sort (dedupe (prev ++ uniqueCountries jobSites)%list)
  end.

(** The order of [sort]: by code units, ascending. *)
Definition Ascending (a b : string) : Prop := String.leb a b = true.

Definition fromRomania : JobSite := mkSite 4 "Romania" "EJobs" "https://ejobs.example".
Definition nowhere : JobSite := mkSite 5 "" "Unplaced" "https://unplaced.example".

End SitesEffects.

(** ** countryImages: the images of the countries *)

Module CountryImages.

Section WithAssets.

(** [String.prototype.toLowerCase]. *)
Variable toLowerCase : string -> string.

(** What [Object.prototype] answers for a key that an object does not
    hold itself ([undefined] for most keys, a function for [constructor],
    [toString] and the like). *)
Variable inherited : string -> JS.value.

(** The two imported image URLs. *)
Variable germanImage romaniaImage : string.

Definition countryImageMap : list (string * string) :=
  [ ("Germany", germanImage); ("Romania", romaniaImage) ]%list.

Fixpoint own (key : string) (entries : list (string * string)) : option string :=
  match entries with
  | [] => None
  | (k, v) :: rest => if (key =? k)%string then Some v else own key rest
  end.

(** [countryImageMap[key]]. *)
Definition member (key : string) : JS.value :=
  match own key countryImageMap with
  | Some image => JS.Str image
  | None => inherited key
  end.

Definition getCountryImage (countryName : string) : JS.value :=
  if negb (JS.nonEmpty countryName) then JS.Null else
  if JS.truthy (member countryName) then member countryName else
  let normalizedName := toLowerCase countryName in
  match find (fun key => (toLowerCase key =? normalizedName)%string)
             (map fst countryImageMap) with
  | Some matchedKey => if JS.nonEmpty matchedKey then member matchedKey else JS.Null
  | None => JS.Null
  end.

(** [getCountryImage(countryName) !== null]. *)
Definition hasCountryImage (countryName : string) : bool :=
  match getCountryImage countryName with JS.Null => false | _ => true end.

Definition getAvailableCountries : list string := map fst countryImageMap.

End WithAssets.

(** An [Object.prototype] that answers [constructor] and nothing else
    that the examples ask for. *)
Definition inheritedConstructor (key : string) : JS.value :=
  if (key =? "constructor")%string then JS.Obj [] else JS.Undefined.

End CountryImages.

(** ** ContactPage.tsx: the page under its events *)

Module ContactEvents.
Import ContactPage.

(** The component, its timers, and the body of the request in flight. *)
Record Page : Type := mkPage {
  world : World;
  inflight : option FormData
}.

Definition initialPage : Page := mkPage initialWorld None.

Inductive Event : Type :=
| Change (field : Field) (value : string)
| Submit
| Settled (o : FetchOutcome)
| TimerFires.

(** The timer that is due runs and is gone.  The component registers
    all its timers with the same delay, so the oldest one is due first. *)
Definition fire (w : World) : World :=
  match timers w with
  | [] => w
  | t :: rest => mkWorld (callback t (ui w)) rest
  end.

(** The browser hands a submission to [handleSubmit] when the submit
    button is enabled and the [required] fields are filled in. *)
Definition canSubmit (w : World) : bool :=
  negb (loading (ui w)) && requiredPopulated (formData (ui w)).

Definition handle (e : Event) (p : Page) : Page :=
  match e with
  | Change field value =>
      mkPage (withUi (handleChange field value) (world p)) (inflight p)
  | Submit =>
      if canSubmit (world p)
      then mkPage (handleSubmit_begin (world p)) (Some (formData (ui (world p))))
      else p
  | Settled o =>
      match inflight p with
      | Some _ => mkPage (handleSubmit_settle o (world p)) None
      | None => p
      end
  | TimerFires => mkPage (fire (world p)) (inflight p)
  end.

Definition run (evs : list Event) (p : Page) : Page :=
  fold_left (fun acc e => handle e acc) evs p.

(** Events that neither submit nor settle: typing and timers. *)
Definition quiet (e : Event) : bool :=
  match e with Change _ _ | TimerFires => true | _ => false end.

(** A timer of the success banner: 5000 ms, to clear the flag. *)
Definition Dismissal (t : Timer) : Prop :=
  delay t = 5000 /\ forall s, callback t s = setSuccess false s.

(** What the page keeps true: the loading flag is up exactly while a
    request is in flight, every pending timer is a dismissal, and the body
    of the request in flight has the required fields filled in. *)
Definition Steady (p : Page) : Prop :=
  loading (ui (world p)) = match inflight p with Some _ => true | None => false end /\
  Forall Dismissal (timers (world p)) /\
  (forall body, inflight p = Some body -> requiredPopulated body = true).

End ContactEvents.

(** ** SitesPage.tsx: the search under a lower-casing that is written out *)

Module SitesCase.
Import SitesPage.

(** Text beyond ASCII is held here in UTF-8, a Greek letter as its two
    bytes; whether one text occurs in another is the same on these bytes
    as on the code units of the page. *)
Fixpoint ofBytes (l : list nat) : string :=
  match l with
  | [] => EmptyString
  | n :: rest => String (ascii_of_nat n) (ofBytes rest)
  end.

Definition between (lo n hi : nat) : bool := ((lo <=? n) && (n <=? hi))%nat.

(** A letter A to Z or a to z. *)
Definition isLetter (c : ascii) : bool :=
  between 65 (nat_of_ascii c) 90 || between 97 (nat_of_ascii c) 122.

(** The ASCII characters that case conversion looks through when it asks
    what stands next to a letter: ' . : ^ and `. *)
Definition caseIgnorable (c : ascii) : bool :=
  existsb (Nat.eqb (nat_of_ascii c)) [39; 46; 58; 94; 96]%nat.

(** The two bytes of one of the Greek letters: a capital alpha to omega
    (206, 145..169 but 162), a small alpha to omicron (206, 177..191), a
    small pi to omega with the final sigma (207, 128..137). *)
Definition greekLetter (lead second : nat) : bool :=
  ((lead =? 206) &&
   ((between 145 second 169 && negb (second =? 162)) || between 177 second 191) ||
   (lead =? 207) && between 128 second 137)%nat.

(** A letter follows, characters that are looked through apart. *)
Fixpoint casedAhead (s : string) : bool :=
  match s with
  | EmptyString => false
  | String c rest =>
      if isLetter c then true
      else if caseIgnorable c then casedAhead rest
      else match rest with
           | String d _ => greekLetter (nat_of_ascii c) (nat_of_ascii d)
           | EmptyString => false
           end
  end.

(** Lower-casing from the left; [cased] says that a letter stands before,
    characters that are looked through apart.  A capital sigma becomes the
    final sigma (207, 130) after a letter and not before one, and the
    small sigma (207, 131) otherwise. *)
Fixpoint lowerFrom (cased : bool) (s : string) : string :=
  match s with
  | EmptyString => EmptyString
  | String c rest =>
      let n := nat_of_ascii c in
      if (n <? 128)%nat then
        String (lowerAsciiChar c)
               (lowerFrom (if isLetter c then true
                           else if caseIgnorable c then cased else false) rest)
      else
        match rest with
        | EmptyString => String c EmptyString
        | String d rest' =>
            let m := nat_of_ascii d in
            if greekLetter n m then
              (if (n =? 206)%nat then
                 if (m =? 163)%nat then
                   if cased && negb (casedAhead rest')
                   then ofBytes [207; 130]%nat else ofBytes [207; 131]%nat
                 else if between 145 m 159 then ofBytes [206; m + 32]%nat
                 else if between 160 m 169 then ofBytes [207; m - 32]%nat
                 else ofBytes [206; m]%nat
               else ofBytes [207; m]%nat)
              ++ lowerFrom true rest'
            else String c (lowerFrom false rest)
        end
  end.

(** [String.prototype.toLowerCase] on text made of ASCII characters and
    the letters of the Greek alphabet. *)
Definition toLowerCaseText (s : string) : string := lowerFrom false s.

Fixpoint isAscii (s : string) : bool :=
  match s with
  | EmptyString => true
  | String c rest => (nat_of_ascii c <? 128)%nat && isAscii rest
  end.

(** The query and the three fields of every loaded site are ASCII text. *)
Definition asciiSite (site : JobSite) : bool :=
  isAscii (site_name site) && isAscii (country site) && isAscii (site_url site).

Definition AsciiText (s : State) : Prop :=
  isAscii (searchQuery s) = true /\ forallb asciiSite (sites s) = true.

(** The specification's words.  The capital and the small form of each of
    the letters A to Z: *)
Definition capitals : string := "ABCDEFGHIJKLMNOPQRSTUVWXYZ".
Definition smalls : string := "abcdefghijklmnopqrstuvwxyz".

Definition letterPairs : list (ascii * ascii) :=
  combine (list_ascii_of_string capitals) (list_ascii_of_string smalls).

(** Two characters are the same, or the two forms of one letter.  (Every
    way of ignoring case takes a character for itself and these pairs for
    the same letter.) *)
Definition SameLetter (a b : ascii) : Prop :=
  a = b \/ In (a, b) letterPairs \/ In (b, a) letterPairs.

(** Two texts are equal up to the case of their letters. *)
Inductive SameUpToCase : string -> string -> Prop :=
| Same_empty : SameUpToCase EmptyString EmptyString
| Same_next a b s t :
    SameLetter a b -> SameUpToCase s t -> SameUpToCase (String a s) (String b t).

(** The query occurs in the text when case is ignored: some part of the
    text is the query up to case. *)
Definition ContainsIgnoringCase (q text : string) : Prop :=
  exists part, Occurs part text /\ SameUpToCase part q.

Definition MatchesIgnoringCase (q : string) (site : JobSite) : Prop :=
  ContainsIgnoringCase q (site_name site) \/
  ContainsIgnoringCase q (country site) \/
  ContainsIgnoringCase q (site_url site).

(** The claim C4 as written: the filter keeps exactly the sites of which
    the name, the country or the URL contains the query when case is
    ignored, and all of them for the empty query. *)
Definition FilterIgnoresCase (lower : string -> string) : Prop :=
  forall s : State,
    (searchQuery s <> EmptyString ->
     forall site, In site (filteredSites lower s) <->
                  In site (sites s) /\ MatchesIgnoringCase (searchQuery s) site) /\
    (searchQuery s = EmptyString -> filteredSites lower s = sites s).

(** Capital alpha, capital sigma: a name that ends in a sigma. *)
Definition alphaSigma : string := ofBytes [206; 145; 206; 163]%nat.
Definition capitalSigma : string := ofBytes [206; 163]%nat.
Definition smallSigma : string := ofBytes [207; 131]%nat.
Definition alphaFinalSigma : string := ofBytes [206; 177; 207; 130]%nat.

Definition greekSite : JobSite :=
  mkSite 6 "Greece" alphaSigma "https://jobs.example/gr".

(** The two forms of a letter, decided. *)
Definition sameLetterb (a b : ascii) : bool :=
  Ascii.eqb a b ||
  existsb (fun p => Ascii.eqb (fst p) a && Ascii.eqb (snd p) b) letterPairs ||
  existsb (fun p => Ascii.eqb (fst p) b && Ascii.eqb (snd p) a) letterPairs.

(** Every character. *)
Definition allChars : list ascii := map ascii_of_nat (seq 0 256).

End SitesCase.

(** ** MultiStepForm.tsx: the error banner *)

Module WizardErrors.
Import Wizard.

Inductive Banner : Type :=
| NoBanner
| ErrorBanner (text : string).

(** [{error && (<Alert>...{error}...</Alert>)}] for an [error] of the
    cell's declared type [string | null]: a non-empty string is shown as
    it is, [null] and the empty string show nothing.  ([None] for a value
    outside the declared type.) *)
Definition errorBanner (e : JS.value) : option Banner :=
  match e with
  | JS.Null => Some NoBanner
  | JS.Str s => Some (if JS.nonEmpty s then ErrorBanner s else NoBanner)
  | _ => None
  end.

(** The specification's words, on responses of the backend's shape: a
    general error is a text, the errors of a field are a list of texts,
    and either may be missing. *)






End WizardErrors.

(* ================================================================== *)
(** * Part II: properties *)
(* ================================================================== *)

(** ** Facts about the JavaScript operators *)

Module JSFacts.
Import JS.

Lemma nonEmpty_true (s : string) : nonEmpty s = true <-> s <> "".
Proof.
  unfold nonEmpty. rewrite negb_true_iff. apply String.eqb_neq.
Qed.

Lemma nonEmpty_false (s : string) : nonEmpty s = false <-> s = "".
Proof.
  unfold nonEmpty. rewrite negb_false_iff. apply String.eqb_eq.
Qed.

(** Once one property of a value could be read, every property can. *)
Lemma get_total (v x : value) (k k' : string) :
  get v k = Some x -> get v k' = Some (optGet v k').
Proof. unfold optGet. destruct v; simpl; intros H; congruence. Qed.

(** An array is truthy, so [v && Array.isArray(v)] tests for an array. *)
Lemma truthy_isArray (v : value) : truthy v && isArray v = isArray v.
Proof. destruct v; simpl; try apply andb_false_r; reflexivity. Qed.

End JSFacts.

(** ** The wizard *)

Module WizardFacts.
Import JS Wizard JSFacts.
#[local] Open Scope list_scope.

Lemma passwordOk_true (p : option string) :
  passwordOk p = true <-> exists pw, p = Some pw /\ (8 <= String.length pw)%nat.
Proof.
  unfold passwordOk. split.
  - destruct p as [pw|]; [|discriminate].
    rewrite andb_true_iff, Z.leb_le. intros [_ H]. exists pw. split; [reflexivity | lia].
  - intros (pw & -> & H). rewrite andb_true_iff, Z.leb_le, nonEmpty_true.
    split; [|lia]. intros ->. simpl in H. lia.
Qed.

(** At step 1 the validation is exactly the completeness of step 1. *)
Lemma validStep_at_1 (s : State) :
  step s = 1 -> (validStep s = true <-> step1Complete (data s)).
Proof.
  intros H1. unfold validStep, step1Complete. rewrite H1. simpl.
  rewrite !andb_true_iff, !nonEmpty_true, passwordOk_true. tauto.
Qed.

Lemma run_snoc (evs : list Event) (e : Event) (w : World) :
  run (evs ++ [e]) w = handle e (run evs w).
Proof. unfold run. now rewrite fold_left_app. Qed.

Lemma onSuccess_ui (d : ApplicationData) (res : value) (w w' : World) :
  onSuccess d res w = Some w' -> ui w' = ui w.
Proof.
  unfold onSuccess, bind. intros H.
  repeat match type of H with
         | match ?x with _ => _ end = _ => destruct x; [|discriminate]
         end.
  now inversion H.
Qed.

(** Settling a submission touches only [error] and [isLoading]. *)
Lemma onSubmit_settle_ui (d : ApplicationData) (o : Outcome) (w : World) :
  exists msg, ui (onSubmit_settle d o w) = setIsLoading false (setError msg (ui w)) \/
              ui (onSubmit_settle d o w) = setIsLoading false (ui w).
Proof.
  unfold onSubmit_settle, tryCatch.
  destruct (onSubmit_try d o w) as [w'|] eqn:E.
  - destruct o as [|res]; [discriminate|]. simpl in E. unfold bind in E.
    destruct (get res "ok") as [ok|]; [|discriminate].
    destruct (get res "status") as [status|]; [|discriminate].
    destruct (truthy ok || strictEqNum status 201).
    + exists Null. right. simpl. now rewrite (onSuccess_ui _ _ _ _ E).
    + destruct (errorMessage res) as [msg|]; [|discriminate].
      exists msg. left. now inversion E.
  - exists (Str unexpectedFailure). left. reflexivity.
Qed.

(** How an event can move the step: not at all, or through an enabled
    button. *)
Lemma handle_step (e : Event) (w : World) :
  step (ui (handle e w)) = step (ui w) \/
  (e = ClickNext /\ nextRendered (ui w) = true /\ nextDisabled (ui w) = false /\
   step (ui (handle e w)) = Z.min total (step (ui w) + 1)) \/
  (e = ClickBack /\ backDisabled (ui w) = false /\
   step (ui (handle e w)) = Z.max 1 (step (ui w) - 1)).
Proof.
  unfold handle. destruct (location w); [|now left].
  destruct e; simpl; try now left.
  - destruct (backDisabled (ui w)) eqn:B; [now left|]. right; right. auto.
  - destruct (nextRendered (ui w)) eqn:R; [|now left].
    destruct (nextDisabled (ui w)) eqn:D; [now left|]. right; left. auto.
  - destruct (submitRendered (ui w) && negb (submitDisabled (ui w))); now left.
  - destruct (pending w) as [d|]; [|now left].
    destruct (onSubmit_settle_ui d o (clearPending w)) as [msg [H|H]];
      rewrite H; now left.
Qed.

Lemma move_range (m : Move) (s : State) :
  1 <= step s <= total -> 1 <= step (move m s) <= total.
Proof. destruct m; simpl; unfold total; lia. Qed.

Lemma handle_range (e : Event) (w : World) :
  1 <= step (ui w) <= total -> 1 <= step (ui (handle e w)) <= total.
Proof.
  intros H.
  destruct (handle_step e w) as [E|[(_ & _ & _ & E)|(_ & _ & E)]];
    rewrite E; unfold total in *; lia.
Qed.

Lemma run_range (evs : list Event) :
  1 <= step (ui (run evs initialWorld)) <= total.
Proof.
  induction evs as [|e evs IH] using rev_ind.
  - unfold total. simpl. lia.
  - rewrite run_snoc. now apply handle_range.
Qed.

Lemma moves_range (ms : list Move) :
  1 <= step (moves ms initialState) <= total.
Proof.
  induction ms as [|m ms IH] using rev_ind.
  - unfold total. simpl. lia.
  - unfold moves in *. rewrite fold_left_app. simpl. now apply move_range.
Qed.

(** A disabled or absent Next button swallows the click. *)
Lemma clickNext_blocked (w : World) :
  nextDisabled (ui w) = true -> handle ClickNext w = w.
Proof.
  intros D. unfold handle. destruct (location w); [|reflexivity].
  now rewrite D, andb_false_r.
Qed.

Lemma entered_step2 (evs : list Event) :
  step (ui (run evs initialWorld)) = 2 -> exists pre post, EnteredStep2 evs pre post.
Proof.
  induction evs as [|e evs IH] using rev_ind; [discriminate|].
  rewrite run_snoc. intros H2.
  pose proof (run_range evs) as R. unfold total in R.
  destruct (handle_step e (run evs initialWorld))
    as [E|[(-> & Rd & D & E)|(_ & _ & E)]].
  - (* the last event left the step alone *)
    rewrite E in H2. destruct (IH H2) as (pre & post & -> & S1 & C & D & S2 & Stay).
    exists pre, (post ++ [e]).
    refine (conj _ (conj S1 (conj C (conj D (conj S2 _))))).
    + now rewrite <- app_assoc.
    + intros post1 post2 Hsplit.
      destruct post2 as [|x post2 _] using rev_ind.
      * rewrite app_nil_r in Hsplit. subst post1.
        change (ClickNext :: post ++ [e]) with ((ClickNext :: post) ++ [e]).
        rewrite app_assoc, run_snoc, E. exact H2.
      * rewrite app_assoc in Hsplit. apply app_inj_tail in Hsplit as [-> _].
        now apply (Stay post1 post2).
  - (* the last event is the click on Next *)
    unfold nextRendered, total in Rd. apply Z.ltb_lt in Rd.
    assert (S1 : step (ui (run evs initialWorld)) = 1) by lia.
    assert (S2 : step (ui (run (evs ++ [ClickNext]) initialWorld)) = 2)
      by now rewrite run_snoc.
    exists evs, [].
    refine (conj eq_refl (conj S1 (conj _ (conj D (conj S2 _))))).
    + apply validStep_at_1; [exact S1|].
      unfold nextDisabled in D. apply orb_false_iff in D as [V _].
      now apply negb_false_iff in V.
    + intros post1 post2 Hsplit. symmetry in Hsplit.
      apply app_eq_nil in Hsplit as [-> _]. now rewrite run_snoc.
  - (* Back cannot end at step 2 *)
    rewrite E in H2. lia.
Qed.

(** C1.  Whatever the user and the network do to a freshly mounted
    wizard, it is at step 2 only through a click on Next made at step 1
    while first name, last name, username, email, phone number and age
    were all non-empty and the password had at least eight characters
    (and the wizard has stayed at step 2 since that click).  In a state at
    step 1 where this does not hold, the Next button is disabled and a
    click on it changes nothing. *)
Theorem step2_only_through_complete_step1 (evs : list Event) (w : World) :
  (step (ui (run evs initialWorld)) = 2 ->
   exists pre post, EnteredStep2 evs pre post) /\
  (step (ui w) = 1 -> ~ step1Complete (data (ui w)) ->
   nextDisabled (ui w) = true /\ handle ClickNext w = w).
Proof.
  split; [apply entered_step2|].
  intros S1 NC.
  assert (D : nextDisabled (ui w) = true).
  { unfold nextDisabled. destruct (validStep (ui w)) eqn:V; [|reflexivity].
    exfalso. apply NC. now apply validStep_at_1. }
  split; [exact D | now apply clickNext_blocked].
Qed.

Lemma step2_only_through_complete_step1_witness :
  (step (ui (run (fillStep1 ++ [ClickNext]) initialWorld)) = 2 /\
   exists pre post, EnteredStep2 (fillStep1 ++ [ClickNext]) pre post) /\
  (step (ui initialWorld) = 1 /\ ~ step1Complete (data (ui initialWorld)) /\
   nextDisabled (ui initialWorld) = true /\
   handle ClickNext initialWorld = initialWorld).
Proof.
  assert (NC : ~ step1Complete (data (ui initialWorld))).
  { intros [F _]. now apply F. }
  split.
  - split; [reflexivity|].
    apply (proj1 (step2_only_through_complete_step1
                    (fillStep1 ++ [ClickNext]) initialWorld)).
    reflexivity.
  - split; [reflexivity|]. split; [exact NC|].
    apply (proj2 (step2_only_through_complete_step1
                    (fillStep1 ++ [ClickNext]) initialWorld)).
    + reflexivity.
    + exact NC.
Defined.

(** C9.  From step 1, every sequence of [next] and [back] updates, and
    every sequence of events of the mounted wizard, keeps the step between
    1 and 2: [next] clamps at the total of 2 and [back] clamps at 1. *)
Theorem step_stays_between_1_and_2 (ms : list Move) (evs : list Event) :
  1 <= step (moves ms initialState) <= 2 /\
  1 <= step (ui (run evs initialWorld)) <= 2 /\
  (forall s, step (next s) = Z.min 2 (step s + 1)) /\
  (forall s, step (back s) = Z.max 1 (step s - 1)).
Proof.
  split; [apply moves_range|].
  split; [apply run_range|].
  split; reflexivity.
Qed.

(** C7, counterexample: while a submission is in flight the wizard is at
    step 2 and its Back button is disabled; the click is lost. *)
Lemma back_disabled_while_submitting :
  let w := run submitting initialWorld in
  location w = AtWizard /\ 1 < step (ui w) /\
  backDisabled (ui w) = true /\
  step (ui (handle ClickBack w)) = step (ui w) /\
  ~ BackAlwaysEnabled.
Proof.
  intros w.
  assert (L : location w = AtWizard) by (vm_compute; reflexivity).
  assert (S : 1 < step (ui w)) by (vm_compute; reflexivity).
  assert (B : backDisabled (ui w) = true) by (vm_compute; reflexivity).
  refine (conj L (conj S (conj B (conj _ _)))).
  - vm_compute; reflexivity.
  - intros H. destruct (H w L S) as [D _]. congruence.
Qed.

(** C7, amended.  In every wizard state beyond step 1 in which no
    submission is in flight, the Back button is enabled whatever the form
    holds (no validation is involved), and a click on it decrements the
    step by one and changes nothing else. *)
Theorem back_enabled_when_idle (w : World) (d : ApplicationData) :
  location w = AtWizard -> 1 < step (ui w) -> isLoading (ui w) = false ->
  backDisabled (ui w) = false /\
  backDisabled (setData (fun _ => d) (ui w)) = false /\
  step (ui (handle ClickBack w)) = step (ui w) - 1 /\
  handle ClickBack w = withUi (setStep (fun n => n - 1)) w.
Proof.
  intros L S I.
  assert (B : backDisabled (ui w) = false).
  { unfold backDisabled. rewrite I, orb_false_r. apply Z.eqb_neq. lia. }
  assert (M : Z.max 1 (step (ui w) - 1) = step (ui w) - 1) by lia.
  unfold handle. rewrite L, B.
  refine (conj eq_refl (conj B (conj M _))).
  unfold withUi, back, setStep. now rewrite M.
Qed.

Lemma back_enabled_when_idle_witness :
  let w := run (fillStep1 ++ [ClickNext]) initialWorld in
  location w = AtWizard /\ 1 < step (ui w) /\ isLoading (ui w) = false /\
  backDisabled (ui w) = false /\
  backDisabled (setData (fun _ => initialData) (ui w)) = false /\
  step (ui (handle ClickBack w)) = step (ui w) - 1 /\
  handle ClickBack w = withUi (setStep (fun n => n - 1)) w.
Proof.
  split; [reflexivity|]. split; [reflexivity|]. split; [reflexivity|].
  apply (back_enabled_when_idle
           (run (fillStep1 ++ [ClickNext]) initialWorld) initialData);
    reflexivity.
Defined.

Lemma errorMessage_firstAvailable (res x : value) (k : string) :
  get res k = Some x ->
  errorMessage res =
    Some (firstAvailable (serverCandidates res) (Str genericFailure)).
Proof.
  intros G. unfold errorMessage, firstAvailable, serverCandidates, bind.
  rewrite (get_total _ _ _ "error" G), (get_total _ _ _ "username" G),
          (get_total _ _ _ "email" G).
  simpl.
  destruct (truthy (optGet res "error")); [reflexivity|].
  destruct (truthy (optFirst (optGet res "username"))); [reflexivity|].
  destruct (truthy (optFirst (optGet res "email"))); reflexivity.
Qed.

Import WizardErrors.






(** With no error from the server the generic message is shown. *)
Example generic_message_when_no_server_error :
  let res := Obj [("ok", Bool false); ("status", Num 500)] in
  errorBanner (error (ui (onSubmit_settle initialData (Resolved res) initialWorld)))
  = Some (ErrorBanner genericFailure).
Proof. reflexivity. Qed.

Example usernameTaken_message :
  firstAvailable (serverCandidates usernameTaken) (Str genericFailure)
  = Str "A user with that username already exists.".
Proof. reflexivity. Qed.

End WizardFacts.

(** ** The sites directory *)

Module SitesFacts.
Import JS SitesPage JSFacts.

Lemma prefix_app (q s : string) :
  String.prefix q s = true <-> exists after, s = (q ++ after)%string.
Proof.
  revert s. induction q as [|c q IH]; intros s; simpl.
  - split; [intros _; now exists s | now destruct s].
  - destruct s as [|c' s]; simpl.
    + split; [discriminate | intros [after H]; discriminate].
    + destruct (ascii_dec c c') as [->|N].
      * rewrite IH. split; intros [after H]; exists after; congruence.
      * split; [discriminate | intros [after H]; congruence].
Qed.

(** [includes] decides occurrence. *)
Lemma includes_Occurs (s q : string) : includes s q = true <-> Occurs q s.
Proof.
  unfold Occurs. induction s as [|c s IH]; cbn [includes].
  - rewrite orb_false_r, prefix_app. split.
    + intros [after H]. now exists ""%string, after.
    + intros (before & after & H). destruct before; simpl in H.
      * now exists after.
      * discriminate.
  - rewrite orb_true_iff, prefix_app, IH. split.
    + intros [[after H]|(before & after & H)].
      * now exists ""%string, after.
      * exists (String c before), after. simpl. now rewrite H.
    + intros (before & after & H). destruct before as [|c' before]; simpl in H.
      * left. now exists after.
      * right. exists before, after. congruence.
Qed.

Lemma matchesQuery_Matches (lower : string -> string) (q : string) (site : JobSite) :
  q <> ""%string -> (matchesQuery lower q site = true <-> Matches lower q site).
Proof.
  intros NE. apply nonEmpty_true in NE. unfold matchesQuery, Matches, OccursIgnoringCase.
  rewrite NE. cbn [negb]. rewrite !orb_true_iff, !includes_Occurs. tauto.
Qed.

Lemma filter_Selects {A : Type} (P : A -> Prop) (p : A -> bool) (l : list A) :
  (forall x, p x = true <-> P x) -> Selects P l (filter p l).
Proof.
  intros Hp. induction l as [|x l IH]; simpl; [constructor|].
  destruct (p x) eqn:E.
  - apply Selects_keep; [now apply Hp | exact IH].
  - apply Selects_drop; [|exact IH]. intros HP. apply Hp in HP. congruence.
Qed.

(** [Selects] leaves no choice: it names one list. *)
Lemma Selects_unique {A : Type} (P : A -> Prop) (l l1 l2 : list A) :
  Selects P l l1 -> Selects P l l2 -> l1 = l2.
Proof.
  intros H1. revert l2. induction H1 as [|x l l1 Px _ IH|x l l1 NPx _ IH];
    intros l2 H2; inversion H2; subst; try contradiction; auto.
  f_equal. now apply IH.
Qed.

Lemma Selects_In {A : Type} (P : A -> Prop) (l l' : list A) :
  Selects P l l' -> forall x, In x l' <-> In x l /\ P x.
Proof.
  induction 1 as [|y l l' Py _ IH|y l l' NPy _ IH]; intros x; simpl.
  - tauto.
  - rewrite IH. split; [intros [->|[? ?]]; auto | intros [[->|?] ?]; auto].
  - rewrite IH. split; [intros [? ?]; auto | intros [[->|?] ?]; [contradiction|auto]].
Qed.

Lemma lowerAscii_app (a b : string) :
  lowerAscii (a ++ b) = (lowerAscii a ++ lowerAscii b)%string.
Proof. induction a as [|c a IH]; simpl; congruence. Qed.

Lemma lowerAscii_split (s a b : string) :
  lowerAscii s = (a ++ b)%string ->
  exists a' b', s = (a' ++ b')%string /\ lowerAscii a' = a /\ lowerAscii b' = b.
Proof.
  revert s. induction a as [|c a IH]; intros s H; simpl in H.
  - now exists ""%string, s.
  - destruct s as [|c' s]; [discriminate|]. simpl in H. injection H as Hc Hs.
    destruct (IH s Hs) as (a' & b' & -> & Ha & Hb).
    exists (String c' a'), b'. simpl. now rewrite Hc, Ha, Hb.
Qed.

(** With a lower-casing that works character by character, occurring when
    case is ignored is having a substring that differs from the query in
    case only. *)
Lemma occursIgnoringCase_ascii (q s : string) :
  OccursIgnoringCase lowerAscii q s <->
  exists sub, Occurs sub s /\ lowerAscii sub = lowerAscii q.
Proof.
  unfold OccursIgnoringCase, Occurs. split.
  - intros (before & after & H).
    apply lowerAscii_split in H as (before' & rest & -> & _ & H).
    apply lowerAscii_split in H as (sub & after' & -> & Hsub & _).
    exists sub. split; [now exists before', after' | exact Hsub].
  - intros (sub & (before & after & ->) & Hsub).
    exists (lowerAscii before), (lowerAscii after).
    now rewrite !lowerAscii_app, Hsub.
Qed.

Lemma filter_all {A : Type} (l : list A) : filter (fun _ => true) l = l.
Proof. induction l as [|x l IH]; simpl; congruence. Qed.

(** Whatever the lower-casing [lower] does, the filter keeps exactly the
    sites (in their order) whose name, country or URL contains the query
    when both went through [lower], and with the empty query it returns
    the loaded list as it is.  (What this says about the case of letters
    depends on [lower]; see [SitesCaseFacts].) *)
Lemma filteredSites_exact (lower : string -> string) (s : State) :
  (searchQuery s <> ""%string ->
   Selects (Matches lower (searchQuery s)) (sites s) (filteredSites lower s) /\
   forall site, In site (filteredSites lower s) <->
                In site (sites s) /\ Matches lower (searchQuery s) site) /\
  (searchQuery s = ""%string -> filteredSites lower s = sites s).
Proof.
  split.
  - intros NE.
    assert (Sel : Selects (Matches lower (searchQuery s)) (sites s)
                          (filteredSites lower s)).
    { apply filter_Selects. intros site. now apply matchesQuery_Matches. }
    split; [exact Sel | now apply Selects_In].
  - intros E. unfold filteredSites, matchesQuery. rewrite E. simpl.
    apply filter_all.
Qed.

Example filter_by_country :
  filteredSites lowerAscii (directory "POLAND") = [eurojobs; pracuj].
Proof. reflexivity. Qed.

Example filter_by_url :
  filteredSites lowerAscii (directory "Example/") = [eurojobs; stepstone].
Proof. reflexivity. Qed.

(** C2, counterexample: the empty selection also removes the parameter. *)
Lemma empty_selection_clears_param :
  let s' := handleCountryChange "" (mount [("country", "Poland")]) in
  selectedCountry s' = ""%string /\
  paramsGet "country" (searchParams s') = None /\
  ~ ParamTracksSelection.
Proof.
  split; [reflexivity|]. split; [reflexivity|].
  intros H.
  destruct (H ""%string (mount [("country", "Poland")%string])) as [_ [A _]].
  discriminate (A eq_refl).
Qed.

(** C2, amended.  After the selection-change handler ran on a selection
    [c], the selected country is [c]; when [c] is neither empty nor "all"
    the query string is the single parameter [country] with value [c];
    and the parameter is absent exactly when [c] is "all" or empty. *)
Theorem handleCountryChange_param (c : string) (s : State) :
  let s' := handleCountryChange c s in
  selectedCountry s' = c /\
  (c <> ""%string -> c <> "all"%string ->
   searchParams s' = [("country"%string, c)] /\
   paramsGet "country" (searchParams s') = Some c) /\
  (paramsGet "country" (searchParams s') = None <->
   c = "all"%string \/ c = ""%string).
Proof.
  unfold handleCountryChange.
  destruct (nonEmpty c) eqn:NE; destruct (String.eqb_spec c "all") as [A|A]; simpl.
  - split; [reflexivity|]. split; [contradiction|]. split; auto.
  - split; [reflexivity|]. split; [auto|].
    split; [discriminate|]. apply nonEmpty_true in NE. intros [?|?]; contradiction.
  - split; [reflexivity|]. split; [contradiction|]. split; auto.
  - apply nonEmpty_false in NE. split; [reflexivity|]. split; [contradiction|].
    split; auto.
Qed.

Lemma handleCountryChange_param_witness :
  let s' := handleCountryChange "Germany" (mount []) in
  "Germany"%string <> ""%string /\ "Germany"%string <> "all"%string /\
  searchParams s' = [("country"%string, "Germany"%string)] /\
  paramsGet "country" (searchParams s') = Some "Germany"%string.
Proof.
  split; [discriminate|]. split; [discriminate|].
  apply (proj1 (proj2 (handleCountryChange_param "Germany" (mount []))));
    discriminate.
Defined.

Lemma parseJobSites_tolerant (res x : value) (k : string) :
  get res k = Some x -> parseJobSites res = Some (tolerantParse res).
Proof.
  intros G. unfold parseJobSites, tolerantParse, bind.
  rewrite (get_total _ _ _ "results" G), (get_total _ _ _ "data" G),
          (get_total _ _ _ "ok" G), (get_total _ _ _ "status" G).
  rewrite !truthy_isArray.
  destruct (isArray (optGet res "results")); [reflexivity|].
  destruct (isArray (optGet res "data")); [reflexivity|].
  destruct (isArray res); [reflexivity|].
  destruct (truthy (optGet res "ok") || strictEqNum (optGet res "status") 200);
    reflexivity.
Qed.

(** In the sites view, the list handed to [setSites] is [res.results]
    when that is an array, else [res.data] when that is an array, else the
    response when it is an array, else the empty list; a rejected request
    gives the empty list. *)
Lemma loadedSites_tolerant (o : Outcome) :
  loadedSites o =
    match o with Rejected => Arr [] | Resolved res => tolerantParse res end.
Proof.
  destruct o as [|res]; [reflexivity|]. unfold loadedSites, tryCatch.
  destruct (get res "ok") as [x|] eqn:G.
  - now rewrite (parseJobSites_tolerant _ _ _ G).
  - destruct res; try discriminate; reflexivity.
Qed.

End SitesFacts.

(** ** The dashboard *)

Module DashboardFacts.
Import JS Dashboard JSFacts.

Lemma viewAllParse_total (res x : value) (k : string) :
  get res k = Some x -> exists v, viewAllParse res = Some v.
Proof.
  intros G. unfold viewAllParse, bind.
  rewrite (get_total _ _ _ "results" G), (get_total _ _ _ "data" G).
  destruct (truthy (optGet res "results")); [eauto|].
  destruct (truthy (optGet res "data")); eauto.
Qed.

(** The first click, answered: the broader view is switched on and the
    curated list is kept beside it. *)
Lemma toggle_on (enc : string -> string) (s : State) (res ok : value) :
  showAllCountries s = false -> get res "ok" = Some ok ->
  exists all,
    handleViewAllCountries enc (Resolved res) s
    = mkState (country s) (sites s) all true false (location s).
Proof.
  intros Off G. unfold handleViewAllCountries, viewAll_try, tryCatch, bind.
  rewrite Off, G. destruct (truthy ok).
  - destruct (viewAllParse_total _ _ _ G) as [v ->]. now exists v.
  - now exists (allSites s).
Qed.

(** What the re-fetch of the dashboard makes of the curated list. *)
Lemma refetch_sites (o : Outcome) (s : State) :
  exists v,
    tryCatch (refetch_try o s) s = setSites v s /\
    (forall r okv, o = Resolved r -> get r "ok" = Some okv -> truthy okv = true ->
       v = orElse (optGet r "job_sites") (Arr [])) /\
    (forall r okv, o = Resolved r -> get r "ok" = Some okv -> truthy okv = false ->
       v = sites s) /\
    (forall r, o = Resolved r -> get r "ok" = None -> v = sites s) /\
    (o = Rejected -> v = sites s).
Proof.
  assert (Same : setSites (sites s) s = s) by now destruct s.
  destruct o as [|r]; unfold refetch_try, tryCatch, bind.
  - exists (sites s). rewrite Same. repeat split; intros; congruence.
  - destruct (get r "ok") as [okv|] eqn:G.
    + destruct (truthy okv) eqn:T.
      * rewrite (get_total _ _ _ "job_sites" G).
        exists (orElse (optGet r "job_sites") (Arr [])).
        repeat split; intros; congruence.
      * exists (sites s). rewrite Same. repeat split; intros; congruence.
    + exists (sites s). rewrite Same. repeat split; intros; congruence.
Qed.

(** C3, counterexample: for a user with a country the second click leaves
    the dashboard for the sites view. *)
Lemma second_toggle_navigates :
  let s' := handleViewAllCountries encodeUnreserved Rejected
              (handleViewAllCountries encodeUnreserved
                 (Resolved allSitesResponse) mounted) in
  location mounted = AtDashboard /\
  location s' = NavigatedTo "/sites?country=Poland" /\
  ~ ToggleTwiceRestores encodeUnreserved.
Proof.
  split; [reflexivity|]. split; [reflexivity|].
  intros H.
  destruct (H mounted (Resolved allSitesResponse) Rejected) as (_ & _ & L).
  discriminate L.
Qed.

(** C3, amended.  From the curated view ([showAllCountries] off), when
    the first click's request is answered, two clicks leave the flag off
    again and nothing loading.  For a user with a country the curated list
    is untouched and the second click navigates to the sites view of that
    country.  For a user without a country the dashboard stays, and it
    shows the [job_sites] of the re-fetched dashboard response when that
    response is [ok], and the curated list it had otherwise. *)
Theorem toggle_twice
  (enc : string -> string) (s : State) (res1 ok1 : value) (o2 : Outcome) :
  showAllCountries s = false -> get res1 "ok" = Some ok1 ->
  let s' := handleViewAllCountries enc o2
              (handleViewAllCountries enc (Resolved res1) s) in
  showAllCountries s' = false /\ country s' = country s /\ loading s' = false /\
  displaySites s' = sites s' /\
  (country s <> ""%string ->
   sites s' = sites s /\
   location s' = NavigatedTo ("/sites?country=" ++ enc (country s))) /\
  (country s = ""%string ->
   location s' = location s /\
   (forall r okv, o2 = Resolved r -> get r "ok" = Some okv -> truthy okv = true ->
      sites s' = orElse (optGet r "job_sites") (Arr [])) /\
   (forall r okv, o2 = Resolved r -> get r "ok" = Some okv -> truthy okv = false ->
      sites s' = sites s) /\
   (forall r, o2 = Resolved r -> get r "ok" = None -> sites s' = sites s) /\
   (o2 = Rejected -> sites s' = sites s)).
Proof.
  intros Off G1. destruct (toggle_on enc s res1 ok1 Off G1) as [all ->].
  unfold handleViewAllCountries. cbn [showAllCountries country].
  destruct (nonEmpty (country s)) eqn:NE.
  - apply nonEmpty_true in NE. cbn.
    repeat (split; [reflexivity|]). split; [auto | contradiction].
  - apply nonEmpty_false in NE.
    destruct (refetch_sites o2
                (setLoading true (setShowAllCountries false
                   (mkState (country s) (sites s) all true false (location s)))))
      as (v & -> & Hok & Hnok & Hnull & Hrej).
    cbn in *.
    repeat (split; [reflexivity|]). split; [contradiction|].
    intros _. repeat split; assumption.
Qed.

Lemma toggle_twice_witness :
  let s' := handleViewAllCountries encodeUnreserved Rejected
              (handleViewAllCountries encodeUnreserved
                 (Resolved allSitesResponse) mounted) in
  (showAllCountries mounted = false /\
   get allSitesResponse "ok" = Some (Bool true) /\
   country mounted <> ""%string) /\
  showAllCountries s' = false /\
  sites s' = sites mounted /\
  location s' = NavigatedTo ("/sites?country=" ++ encodeUnreserved (country mounted)).
Proof.
  pose proof (toggle_twice encodeUnreserved mounted allSitesResponse
                (Bool true) Rejected eq_refl eq_refl)
    as (Flag & _ & _ & _ & WithCountry & _).
  assert (NE : country mounted <> ""%string) by discriminate.
  split; [repeat split; exact NE|].
  split; [exact Flag|]. exact (WithCountry NE).
Defined.

(** A user without a country whose dashboard is re-fetched: the curated
    list is whatever the second response carries. *)
Example refetch_replaces_curated :
  let s := mkState "" (Arr [pracujSite]) (Arr []) false false AtDashboard in
  let again := Obj [ ("ok", Bool true); ("job_sites", Arr [stepstoneSite]) ] in
  displaySites
    (handleViewAllCountries encodeUnreserved (Resolved again)
       (handleViewAllCountries encodeUnreserved (Resolved allSitesResponse) s))
  = Arr [stepstoneSite].
Proof. reflexivity. Qed.

(** C6, the dashboard's parser at a bare array and at a response whose
    [results] is not an array: the sites view hands on what the
    specification describes, the dashboard does not.  A bare array has no
    [ok] property, so the dashboard never reaches its parser and shows no
    sites at all; a truthy [results] that is not an array is stored as it
    is although [data] holds the array. *)
Theorem dashboard_parser_diverges (enc : string -> string) :
  let bare := Arr [pracujSite; stepstoneSite] in
  let odd := Obj [ ("ok", Bool true); ("results", Str "see data");
                   ("data", Arr [pracujSite]) ] in
  (SitesPage.tolerantParse bare = bare /\
   SitesPage.loadedSites (Resolved bare) = bare /\
   viewAllParse bare = Some bare /\
   allSites (handleViewAllCountries enc (Resolved bare) mounted) = Arr [] /\
   displaySites (handleViewAllCountries enc (Resolved bare) mounted) = Arr []) /\
  (SitesPage.tolerantParse odd = Arr [pracujSite] /\
   SitesPage.loadedSites (Resolved odd) = Arr [pracujSite] /\
   allSites (handleViewAllCountries enc (Resolved odd) mounted) = Str "see data").
Proof. repeat split. Qed.

End DashboardFacts.

(** ** The contact form *)

Module ContactFacts.
Import JS ContactPage JSFacts.
#[local] Open Scope list_scope.

Lemma ok_2xx (r : Response) : ok r = true <-> 200 <= status r <= 299.
Proof. unfold ok. rewrite andb_true_iff, !Z.leb_le. tauto. Qed.

Lemma settle_success (r : Response) (w : World) :
  ok r = true ->
  handleSubmit_settle (FetchResolved r) w
  = mkWorld (mkState (mkForm "" "" "" "") false true (error (ui w)))
            (timers w ++ [mkTimer 5000 (setSuccess false)]).
Proof.
  intros Hok. unfold handleSubmit_settle, handleSubmit_try, tryCatch.
  now rewrite Hok.
Qed.

(** C5.  When the endpoint answers a submission with a 2xx response, the
    handler sets name, email, subject and message to the empty string,
    raises the success banner, clears the error, and registers one timer
    of exactly 5000 ms whose callback takes the banner down.  This holds
    whatever the form held, so in particular with the required fields
    filled in, and from whatever state the component is in when the
    response arrives. *)
Theorem success_clears_form_and_schedules_dismissal (w : World) (r : Response) :
  200 <= status r <= 299 ->
  SuccessShown w (handleSubmit_settle (FetchResolved r) w) /\
  SuccessShown w (handleSubmit (FetchResolved r) w) /\
  error (ui (handleSubmit (FetchResolved r) w)) = Null.
Proof.
  intros H2xx. apply ok_2xx in H2xx. unfold handleSubmit.
  rewrite !settle_success by assumption.
  unfold SuccessShown. cbn.
  repeat split; eexists; repeat split.
Qed.

Lemma success_clears_form_and_schedules_dismissal_witness :
  let r := mkResponse 201 (Some (Obj [])) in
  (requiredPopulated (formData (ui enquiry)) = true /\ 200 <= status r <= 299) /\
  SuccessShown enquiry (handleSubmit_settle (FetchResolved r) enquiry) /\
  SuccessShown enquiry (handleSubmit (FetchResolved r) enquiry) /\
  error (ui (handleSubmit (FetchResolved r) enquiry)) = Null.
Proof.
  assert (H : 200 <= 201 <= 299) by (split; discriminate).
  split; [split; [reflexivity | exact H]|].
  apply (success_clears_form_and_schedules_dismissal enquiry
           (mkResponse 201 (Some (Obj []))) H).
Defined.

Lemma or_fallback_truthy (m : value) : truthy (JS.orElse m (Str sendFailed)) = true.
Proof. unfold orElse. destruct (truthy m) eqn:T; [exact T | reflexivity]. Qed.

(** What the part of a failed submission after the [await] does. *)
Lemma settle_failure (o : FetchOutcome) (w : World) :
  Failed o ->
  exists msg, truthy msg = true /\
    handleSubmit_settle o w
    = mkWorld (mkState (formData (ui w)) false (success (ui w)) msg) (timers w).
Proof.
  intros F. unfold handleSubmit_settle, handleSubmit_try, tryCatch, bind.
  destruct o as [|r].
  - now exists (Str networkError).
  - simpl in F. destruct (ok r) eqn:Hok; [apply ok_2xx in Hok; contradiction|].
    destruct (json r) as [data|]; [|now exists (Str networkError)].
    destruct (get data "message") as [m|]; [|now exists (Str networkError)].
    exists (JS.orElse m (Str sendFailed)). split; [apply or_fallback_truthy | reflexivity].
Qed.

(** C10.  When a submission fails (the request is rejected, or answered
    with a status outside 200..299), the four fields hold what they held:
    from the [await] on the handler sets an error message (and ends the
    loading state) and touches neither the form, nor the success flag, nor
    the timers; over the whole handler the form is unchanged as well. *)
Theorem failure_keeps_form (w : World) (o : FetchOutcome) :
  Failed o ->
  let w' := handleSubmit_settle o w in
  formData (ui w') = formData (ui w) /\
  success (ui w') = success (ui w) /\
  timers w' = timers w /\
  loading (ui w') = false /\
  truthy (error (ui w')) = true /\
  formData (ui (handleSubmit o w)) = formData (ui w) /\
  truthy (error (ui (handleSubmit o w))) = true.
Proof.
  intros F. unfold handleSubmit.
  destruct (settle_failure o w F) as (msg & T & ->).
  destruct (settle_failure o (handleSubmit_begin w) F) as (msg' & T' & ->).
  cbn. repeat split; assumption.
Qed.

Lemma failure_keeps_form_witness :
  let o := FetchResolved
             (mkResponse 400 (Some (Obj [("message", Str "Invalid email.")]))) in
  Failed o /\
  formData (ui (handleSubmit_settle o enquiry)) = formData (ui enquiry) /\
  formData (ui (handleSubmit o enquiry)) = formData (ui enquiry) /\
  error (ui (handleSubmit o enquiry)) = Str "Invalid email.".
Proof.
  assert (F : Failed (FetchResolved
             (mkResponse 400 (Some (Obj [("message", Str "Invalid email.")]))))).
  { simpl. intros [_ H]. now apply H. }
  pose proof (failure_keeps_form enquiry _ F) as (K1 & _ & _ & _ & _ & K2 & _).
  split; [exact F|]. split; [exact K1|]. split; [exact K2 | reflexivity].
Defined.

Example network_error_keeps_form :
  handleSubmit FetchRejected enquiry
  = mkWorld (mkState (formData (ui enquiry)) false false (Str networkError)) [].
Proof. reflexivity. Qed.

End ContactFacts.

(** ** The wizard as rendered, and its submission *)

Module WizardExtra.
Import JS Wizard WizardUI JSFacts WizardFacts.
#[local] Open Scope list_scope.

Lemma runUI_snoc (us : list UIEvent) (u : UIEvent) (w : World) :
  runUI (us ++ [u]) w = handleUI u (runUI us w).
Proof. unfold runUI. now rewrite fold_left_app. Qed.

Lemma handle_away (e : Event) (w : World) :
  location w <> AtWizard -> handle e w = w.
Proof. unfold handle. destruct (location w); [contradiction | reflexivity]. Qed.

(** The two ways a settled submission leaves the world: an error shown on
    the wizard, or the payment page with the data of the request. *)
Lemma onSubmit_settle_cases (d : ApplicationData) (o : Outcome) (w : World) :
  (exists msg, truthy msg = true /\
     onSubmit_settle d o w = withUi (fun s => setIsLoading false (setError msg s)) w) \/
  (exists storage token draft uid,
     onSubmit_settle d o w
     = mkWorld (setIsLoading false (ui w)) (pending w) storage token
               (AtPayment draft (email d) d uid)).
Proof.
  unfold onSubmit_settle, tryCatch.
  destruct (onSubmit_try d o w) as [w'|] eqn:E.
  - destruct o as [|res]; [discriminate|]. simpl in E. unfold bind in E.
    destruct (get res "ok") as [ok|] eqn:Gok; [|discriminate].
    destruct (get res "status") as [status|]; [|discriminate].
    destruct (truthy ok || strictEqNum status 201).
    + right. unfold onSuccess, bind in E.
      repeat match type of E with
             | match ?x with _ => _ end = _ => destruct x; [|discriminate]
             end.
      inversion E. subst w'. unfold withUi. simpl. eauto 10.
    + left. rewrite (errorMessage_firstAvailable _ _ _ Gok) in E.
      inversion E. subst w'.
      exists (firstAvailable (serverCandidates res) (Str genericFailure)).
      split; [|reflexivity].
      unfold firstAvailable.
      destruct (find truthy (serverCandidates res)) as [v|] eqn:F; [|reflexivity].
      now apply find_some in F.
  - left. exists (Str unexpectedFailure). split; reflexivity.
Qed.

Lemma oneOf_In (v : string) (options : list string) :
  oneOf v options = true -> In v options.
Proof.
  unfold oneOf. rewrite existsb_exists. intros (x & Hx & E).
  apply String.eqb_eq in E. now subst.
Qed.

(** At step 2 the validation is that the three fields of the step are
    filled in. *)
Lemma validStep_at_2 (s : State) :
  step s = 2 ->
  (validStep s = true <->
   country (data s) <> "" /\ desiredJob (data s) <> "" /\
   desiredStartDate (data s) <> ""%string).
Proof.
  intros H2. unfold validStep. rewrite H2. simpl.
  rewrite !andb_true_iff, !nonEmpty_true. tauto.
Qed.

Lemma handleUI_sound (u : UIEvent) (w : World) : Sound w -> Sound (handleUI u w).
Proof.
  intros S. unfold handleUI.
  destruct (toEvent u w) as [e|] eqn:T; [|exact S].
  destruct (location w) eqn:L;
    [|rewrite handle_away; [exact S | rewrite L; discriminate]].
  pose proof S as Sw. destruct S as (R & S1 & J & P & A).
  destruct u as [i v| | | | |o]; simpl in T.
  - (* an input *)
    destruct (offered i v (ui w)) eqn:O; [|discriminate].
    injection T as <-. unfold handle. rewrite L.
    unfold Sound. cbn [ui pending location withUi setData data step].
    destruct i; cbn [offered] in O;
      try (apply Z.eqb_eq in O);
      try (apply andb_true_iff in O as [O In']; apply Z.eqb_eq in O;
           apply oneOf_In in In').
    all: refine (conj R (conj _ (conj _ (conj P A)))).
    all: try (intros Two; exfalso; lia).
    all: try exact J.
    all: try (intros Two; exact (S1 Two)).
    + (* country *) split; [now right | now left].
    + (* job *) destruct J as [Jc _]. split; [exact Jc | right; exact In'].
  - (* the eye *)
    injection T as <-. unfold handle. rewrite L. exact Sw.
  - (* back *)
    injection T as <-. unfold handle. rewrite L.
    destruct (backDisabled (ui w)); [exact Sw|].
    unfold Sound. cbn [ui pending location withUi back setStep data step].
    refine (conj _ (conj _ (conj J (conj P A)))); [lia|]. intros Two. exfalso. lia.
  - (* next *)
    injection T as <-. unfold handle. rewrite L.
    destruct (nextRendered (ui w)) eqn:Rd; [|exact Sw].
    destruct (nextDisabled (ui w)) eqn:D; [exact Sw|].
    unfold nextRendered, total in Rd. apply Z.ltb_lt in Rd.
    assert (One : step (ui w) = 1) by lia.
    unfold nextDisabled in D. apply orb_false_iff in D as [V _].
    apply negb_false_iff in V. apply (validStep_at_1 _ One) in V.
    unfold Sound. cbn [andb negb ui pending location withUi next setStep data step].
    refine (conj _ (conj (fun _ => V) (conj J (conj P A)))). unfold total. lia.
  - (* submit *)
    injection T as <-. unfold handle. rewrite L.
    destruct (submitRendered (ui w)) eqn:Rd; [|exact Sw].
    destruct (submitDisabled (ui w)) eqn:D; [exact Sw|].
    unfold submitRendered, total in Rd. apply Z.eqb_eq in Rd.
    unfold submitDisabled in D. apply orb_false_iff in D as [V _].
    apply negb_false_iff in V. apply (validStep_at_2 _ Rd) in V.
    unfold Sound.
    cbn [andb negb ui pending location onSubmit_begin setError setIsLoading data step].
    refine (conj R (conj S1 (conj J (conj _ _)))).
    + intros p [= <-]. split; [split; [exact (S1 Rd) | exact V] | exact J].
    + rewrite L. discriminate.
  - (* the response *)
    injection T as <-. unfold handle. rewrite L.
    destruct (pending w) as [p|] eqn:Pe; [|exact Sw].
    destruct (P p eq_refl) as [Cp Jp].
    destruct (onSubmit_settle_cases p o (clearPending w))
      as [(msg & _ & ->)|(storage & token & draft & uid & ->)];
      unfold Sound;
      cbn [ui pending location withUi clearPending setError setIsLoading data step].
    + refine (conj R (conj S1 (conj J (conj _ _)))); [discriminate|].
      rewrite L. discriminate.
    + refine (conj R (conj S1 (conj J (conj _ _)))); [discriminate|].
      intros draft' em p' uid' [= _ <- <- _]. auto.
Qed.

Lemma initial_sound : Sound initialWorld.
Proof.
  unfold Sound. simpl. repeat split; try discriminate; try lia; now left.
Qed.

Lemma runUI_sound (us : list UIEvent) : Sound (runUI us initialWorld).
Proof.
  induction us as [|u us IH] using rev_ind; [apply initial_sound|].
  rewrite runUI_snoc. now apply handleUI_sound.
Qed.

(** X1.  However the user works the rendered form (typing, radio
    groups, Back, Next, Submit) and however requests settle, the data of a
    registration request in flight, and the data handed to the payment
    page, are complete: the six text fields of step 1 are non-empty, the
    password has at least eight characters, and country, job and start
    date are non-empty; the email handed over is the one of that data. *)
Theorem submitted_data_complete (us : list UIEvent) :
  let w := runUI us initialWorld in
  (forall p, pending w = Some p -> Complete p) /\
  (forall draft em p uid,
     location w = AtPayment draft em p uid -> Complete p /\ em = email p).
Proof.
  destruct (runUI_sound us) as (_ & _ & _ & P & A). split.
  - intros p Hp. now destruct (P p Hp).
  - intros draft em p uid Hl. destruct (A draft em p uid Hl) as (C & _ & E). auto.
Qed.

Lemma submitted_data_complete_witness :
  let w := runUI (fillsEverything ++ [PressSubmit; Response (Resolved registered)])
                 initialWorld in
  exists draft uid p,
    location w = AtPayment draft "abebe@example.org" p uid /\
    Complete p /\ "abebe@example.org"%string = email p.
Proof.
  eexists; eexists; eexists. split; [vm_compute; reflexivity|].
  apply (proj2 (submitted_data_complete
                  (fillsEverything ++ [PressSubmit; Response (Resolved registered)]))
           (Num 7) "abebe@example.org"%string _ (Num 42)).
  vm_compute; reflexivity.
Defined.

(** X2.  In every state the rendered form can reach, the country on file
    is one of the six of the radio group (or none yet) and the job on file
    is one the form lists for that country, or "Other" (or none yet):
    choosing a country clears the job.  The same holds of the data of a
    request in flight. *)
Theorem job_fits_country (us : list UIEvent) :
  let w := runUI us initialWorld in
  JobFits (data (ui w)) /\
  (forall p, pending w = Some p -> JobFits p).
Proof.
  destruct (runUI_sound us) as (_ & _ & J & P & _). split; [exact J|].
  intros p Hp. now destruct (P p Hp).
Qed.

Lemma job_fits_country_witness :
  let w := runUI (fillsEverything ++ [PressSubmit]) initialWorld in
  exists p, pending w = Some p /\ desiredJob p = "Cleaner"%string /\ JobFits p.
Proof.
  eexists. split; [vm_compute; reflexivity|]. split; [reflexivity|].
  apply (proj2 (job_fits_country (fillsEverything ++ [PressSubmit]))).
  vm_compute; reflexivity.
Defined.

Lemma handle_flight (e : Event) (w : World) :
  SingleFlight w -> SingleFlight (handle e w).
Proof.
  unfold SingleFlight. intros F. unfold handle.
  destruct (location w); [|exact F].
  destruct e; simpl; try exact F.
  - now destruct (backDisabled (ui w)).
  - now destruct (nextRendered (ui w) && negb (nextDisabled (ui w))).
  - now destruct (submitRendered (ui w) && negb (submitDisabled (ui w))).
  - destruct (pending w) as [d|] eqn:P; [|now rewrite P].
    destruct (onSubmit_settle_cases d o (clearPending w))
      as [(msg & _ & ->)|(storage & token & draft & uid & ->)]; reflexivity.
Qed.

Lemma run_flight (evs : list Event) : SingleFlight (run evs initialWorld).
Proof.
  induction evs as [|e evs IH] using rev_ind; [reflexivity|].
  rewrite run_snoc. now apply handle_flight.
Qed.

(** X3.  At most one registration request is in flight.  In every state
    the wizard can reach, the loading flag is up exactly while a request
    is pending; while one is pending the clicks on Submit, Next and Back
    are all lost, and while none is pending a settling response is
    ignored. *)
Theorem one_request_in_flight (evs : list Event) (o : Outcome) :
  let w := run evs initialWorld in
  (forall d, pending w = Some d ->
     isLoading (ui w) = true /\
     handle ClickSubmit w = w /\ handle ClickNext w = w /\ handle ClickBack w = w) /\
  (pending w = None ->
     isLoading (ui w) = false /\ handle (SubmitSettled o) w = w).
Proof.
  pose proof (run_flight evs) as F. unfold SingleFlight in F. split.
  - intros d P. rewrite P in F. split; [exact F|].
    unfold handle, backDisabled, nextDisabled, submitDisabled.
    rewrite F, !orb_true_r, !andb_false_r. now destruct (location (run evs initialWorld)).
  - intros P. rewrite P in F. split; [exact F|].
    unfold handle. rewrite P. now destruct (location (run evs initialWorld)).
Qed.

Lemma one_request_in_flight_witness :
  let w := run submitting initialWorld in
  (exists d, pending w = Some d) /\
  isLoading (ui w) = true /\
  handle ClickSubmit w = w /\ handle ClickNext w = w /\ handle ClickBack w = w.
Proof.
  split; [eexists; vm_compute; reflexivity|].
  eapply (proj1 (one_request_in_flight submitting Rejected)).
  vm_compute; reflexivity.
Defined.

(** X4.  When the registration request is rejected, or resolves to
    [null] or [undefined], the wizard shows the unexpected-error message
    and stops loading; the data, the step, the page, local storage and the
    auth token are as they were, so the user can submit again. *)
Theorem unreadable_response_is_recoverable
  (d : ApplicationData) (o : Outcome) (w : World) :
  Unreadable o ->
  let w' := onSubmit_settle d o w in
  error (ui w') = Str unexpectedFailure /\
  isLoading (ui w') = false /\
  data (ui w') = data (ui w) /\ step (ui w') = step (ui w) /\
  location w' = location w /\ localStorage w' = localStorage w /\
  authToken w' = authToken w /\
  submitDisabled (ui w') = negb (validStep (ui w)).
Proof.
  intros [->|[->| ->]]; cbn; unfold submitDisabled;
    cbn; rewrite orb_false_r; repeat split.
Qed.

Lemma unreadable_response_is_recoverable_witness :
  let w := run submitting initialWorld in
  let w' := onSubmit_settle (data (ui w)) Rejected w in
  Unreadable Rejected /\
  error (ui w') = Str unexpectedFailure /\
  isLoading (ui w') = false /\
  submitDisabled (ui w') = false.
Proof.
  pose proof (unreadable_response_is_recoverable
                (data (ui (run submitting initialWorld))) Rejected
                (run submitting initialWorld) (or_introl eq_refl))
    as (E & I & _ & _ & _ & _ & _ & D).
  split; [now left|]. split; [exact E|]. split; [exact I|].
  rewrite D. vm_compute; reflexivity.
Defined.

(** X5.  At step 2, choosing a country (even the one already chosen)
    empties the job, so the Submit button is disabled and a click on it
    is lost until a job is chosen again. *)
Theorem choosing_country_blocks_submit (c : string) (w : World) :
  location w = AtWizard -> step (ui w) = 2 ->
  let w' := handle (Edit (onCountry c)) w in
  country (data (ui w')) = c /\
  desiredJob (data (ui w')) = ""%string /\
  submitDisabled (ui w') = true /\
  handle ClickSubmit w' = w'.
Proof.
  intros L Two. unfold handle. rewrite L.
  assert (D : submitDisabled (ui (withUi (setData (update (onCountry c))) w)) = true).
  { unfold submitDisabled, validStep. cbn. rewrite Two. cbn.
    now rewrite andb_false_r. }
  refine (conj eq_refl (conj eq_refl (conj D _))).
  rewrite D, andb_false_r.
  now destruct (location (withUi (setData (update (onCountry c))) w)).
Qed.

Lemma choosing_country_blocks_submit_witness :
  let w := runUI fillsEverything initialWorld in
  let w' := handle (Edit (onCountry "Poland")) w in
  (location w = AtWizard /\ step (ui w) = 2 /\ submitDisabled (ui w) = false) /\
  desiredJob (data (ui w')) = ""%string /\
  submitDisabled (ui w') = true /\
  handle ClickSubmit w' = w'.
Proof.
  split; [repeat split|].
  apply (choosing_country_blocks_submit "Poland" (runUI fillsEverything initialWorld));
    reflexivity.
Defined.

Lemma lookup_setItem_same (k : string) (v : value) (st : list (string * value)) :
  lookup k (setItem k v st) = Some (Str (toString v)).
Proof.
  induction st as [|[k' v'] st IH]; simpl.
  - now rewrite String.eqb_refl.
  - destruct (String.eqb_spec k k') as [->|N]; simpl.
    + now rewrite String.eqb_refl.
    + apply String.eqb_neq in N. now rewrite N.
Qed.

Lemma lookup_setItem_other (k k' : string) (v : value) (st : list (string * value)) :
  k' <> k -> lookup k' (setItem k v st) = lookup k' st.
Proof.
  intros N. induction st as [|[k0 v0] st IH]; simpl.
  - apply String.eqb_neq in N. now rewrite N.
  - destruct (String.eqb_spec k k0) as [->|N0]; simpl.
    + apply String.eqb_neq in N. now rewrite N.
    + now rewrite IH.
Qed.

(** X6.  A registration answered with [ok], or with status 201, always
    leads to the payment page, which gets the data and the email the user
    submitted and the draft id of the response ("temp" when it has none).
    With a token ([token], else [access]) in the response, local storage
    holds its string form under [auth_access_token] and the auth context
    gets the token itself, and the string form of a [refresh] token is
    stored under [auth_refresh_token]; without a token nothing is stored,
    a [refresh] token included. *)
Theorem success_reaches_payment
  (d : ApplicationData) (res ok status : value) (w : World) :
  get res "ok" = Some ok -> get res "status" = Some status ->
  truthy ok || strictEqNum status 201 = true ->
  let token := orElse (optGet res "token") (optGet res "access") in
  let refresh := optGet res "refresh" in
  let w' := onSubmit_settle d (Resolved res) w in
  location w' = AtPayment (orElse (optGet res "draft_id") (Str "temp"))
                          (email d) d (optGet (optGet res "user") "id") /\
  isLoading (ui w') = false /\ error (ui w') = error (ui w) /\
  (truthy token = true ->
     lookup "auth_access_token" (localStorage w') = Some (Str (toString token)) /\
     authToken w' = token /\
     (truthy refresh = true ->
        lookup "auth_refresh_token" (localStorage w')
        = Some (Str (toString refresh)))) /\
  (truthy token = false ->
     localStorage w' = localStorage w /\ authToken w' = authToken w).
Proof.
  intros Gok Gst Success. unfold onSubmit_settle, onSubmit_try, onSuccess, bind.
  rewrite Gok, Gst, Success.
  rewrite (get_total _ _ _ "token" Gok), (get_total _ _ _ "access" Gok),
          (get_total _ _ _ "refresh" Gok), (get_total _ _ _ "draft_id" Gok),
          (get_total _ _ _ "user" Gok).
  cbn [tryCatch withUi ui location localStorage authToken
       setIsLoading isLoading error].
  refine (conj eq_refl (conj eq_refl (conj eq_refl (conj _ _)))).
  - intros T. rewrite T. split; [|split; [reflexivity|]].
    + destruct (truthy (optGet res "refresh")).
      * rewrite lookup_setItem_other by discriminate. apply lookup_setItem_same.
      * apply lookup_setItem_same.
    + intros Tr. rewrite Tr. apply lookup_setItem_same.
  - intros T. rewrite T. split; reflexivity.
Qed.

Lemma success_reaches_payment_witness :
  let w := runUI (fillsEverything ++ [PressSubmit]) initialWorld in
  let w' := onSubmit_settle (data (ui w)) (Resolved registered) w in
  (get registered "ok" = Some (Bool true) /\
   truthy (orElse (optGet registered "token") (optGet registered "access")) = true /\
   truthy (optGet registered "refresh") = true) /\
  location w' = AtPayment (Num 7) "abebe@example.org" (data (ui w)) (Num 42) /\
  lookup "auth_access_token" (localStorage w') = Some (Str "access-1") /\
  lookup "auth_refresh_token" (localStorage w') = Some (Str "refresh-1").
Proof.
  pose proof (success_reaches_payment
                (data (ui (runUI (fillsEverything ++ [PressSubmit]) initialWorld)))
                registered (Bool true) (Num 201)
                (runUI (fillsEverything ++ [PressSubmit]) initialWorld)
                eq_refl eq_refl eq_refl)
    as (Loc & _ & _ & WithToken & _).
  destruct (WithToken eq_refl) as (Access & _ & Refresh).
  split; [repeat split|].
  split; [exact Loc|]. split; [exact Access | exact (Refresh eq_refl)].
Defined.

(** A token that is no string is stored as its string form, while the
    auth context is handed the token as it came. *)
Example numeric_token_is_stored_as_text :
  let res := Obj [("ok", Bool true); ("token", Num 90210)] in
  let w' := onSubmit_settle initialData (Resolved res) initialWorld in
  lookup "auth_access_token" (localStorage w') = Some (Str "90210") /\
  authToken w' = Num 90210.
Proof. split; reflexivity. Qed.

(** X7.  At step 2, with nothing loading and step 1 complete, Back and
    then Next bring the wizard to exactly the state it was in: nothing the
    user entered at either step is lost on the way. *)
Theorem back_then_next_keeps_everything (w : World) :
  location w = AtWizard -> step (ui w) = 2 -> isLoading (ui w) = false ->
  step1Complete (data (ui w)) ->
  step (ui (handle ClickBack w)) = 1 /\
  data (ui (handle ClickBack w)) = data (ui w) /\
  handle ClickNext (handle ClickBack w) = w.
Proof.
  intros L Two Idle C1.
  assert (B : handle ClickBack w = withUi back w).
  { unfold handle, backDisabled. now rewrite L, Two, Idle. }
  rewrite B. cbn [ui withUi back setStep step data]. rewrite Two.
  refine (conj eq_refl (conj eq_refl _)).
  assert (V : validStep (back (ui w)) = true).
  { apply validStep_at_1; [cbn; now rewrite Two | exact C1]. }
  unfold handle, nextRendered, nextDisabled.
  cbn [location withUi back ui setStep step isLoading]. fold (back (ui w)).
  rewrite L, Two, V, Idle.
  cbn. destruct w as [[d st ld er sp] pe ls at_ lo]. cbn in *. now subst.
Qed.

Lemma back_then_next_keeps_everything_witness :
  let w := runUI fillsEverything initialWorld in
  (location w = AtWizard /\ step (ui w) = 2 /\ isLoading (ui w) = false /\
   step1Complete (data (ui w))) /\
  handle ClickNext (handle ClickBack w) = w.
Proof.
  assert (C : step1Complete (data (ui (runUI fillsEverything initialWorld)))).
  { refine (proj1 (proj2 (runUI_sound fillsEverything)) _). reflexivity. }
  split; [refine (conj eq_refl (conj eq_refl (conj eq_refl C)))|].
  apply (back_then_next_keeps_everything (runUI fillsEverything initialWorld));
    try reflexivity. exact C.
Defined.

End WizardExtra.

(** ** The search and the case of letters *)

Module SitesCaseFacts.
Import JS SitesPage SitesCase JSFacts SitesFacts.
#[local] Open Scope list_scope.

Lemma inPairs (a b : ascii) :
  existsb (fun p => Ascii.eqb (fst p) a && Ascii.eqb (snd p) b) letterPairs = true
  <-> In (a, b) letterPairs.
Proof.
  rewrite existsb_exists. split.
  - intros ([x y] & I & E). apply andb_true_iff in E as [E1 E2].
    apply Ascii.eqb_eq in E1, E2. simpl in E1, E2. now subst.
  - intros I. exists (a, b). split; [exact I|]. simpl. now rewrite !Ascii.eqb_refl.
Qed.

Lemma sameLetterb_SameLetter (a b : ascii) :
  sameLetterb a b = true <-> SameLetter a b.
Proof.
  unfold sameLetterb, SameLetter.
  now rewrite !orb_true_iff, !inPairs, Ascii.eqb_eq, or_assoc.
Qed.

Lemma allChars_complete (c : ascii) : In c allChars.
Proof.
  unfold allChars. rewrite in_map_iff. exists (nat_of_ascii c).
  split; [apply ascii_nat_embedding|]. apply in_seq.
  pose proof (nat_ascii_bounded c). lia.
Qed.

(** Lower-casing identifies exactly the two forms of a letter: checked on
    every pair of characters. *)
Lemma lowerAsciiChar_table :
  forallb (fun a =>
    forallb (fun b =>
      Bool.eqb (Ascii.eqb (lowerAsciiChar a) (lowerAsciiChar b)) (sameLetterb a b))
      allChars) allChars = true.
Proof. vm_compute. reflexivity. Qed.

Lemma lowerAsciiChar_SameLetter (a b : ascii) :
  lowerAsciiChar a = lowerAsciiChar b <-> SameLetter a b.
Proof.
  pose proof lowerAsciiChar_table as T. rewrite forallb_forall in T.
  specialize (T a (allChars_complete a)). rewrite forallb_forall in T.
  specialize (T b (allChars_complete b)). apply Bool.eqb_prop in T.
  rewrite <- sameLetterb_SameLetter, <- T. symmetry. apply Ascii.eqb_eq.
Qed.

Lemma lowerAscii_SameUpToCase (s t : string) :
  lowerAscii s = lowerAscii t <-> SameUpToCase s t.
Proof.
  split.
  - revert t. induction s as [|a s IH]; intros [|b t] H; simpl in H;
      try discriminate; [constructor|].
    injection H as Hc Hs. constructor; [now apply lowerAsciiChar_SameLetter | auto].
  - induction 1 as [|a b s t L _ IH]; [reflexivity|]. simpl.
    apply lowerAsciiChar_SameLetter in L. congruence.
Qed.

Lemma lowerFrom_ascii (s : string) :
  isAscii s = true -> forall cased, lowerFrom cased s = lowerAscii s.
Proof.
  induction s as [|c s IH]; intros A cased; [reflexivity|].
  simpl in A. apply andb_true_iff in A as [Ac As].
  cbn [lowerFrom lowerAscii]. rewrite Ac. now rewrite IH.
Qed.

Lemma toLowerCaseText_ascii (s : string) :
  isAscii s = true -> toLowerCaseText s = lowerAscii s.
Proof. intros A. now apply lowerFrom_ascii. Qed.

Lemma isAscii_app (a b : string) :
  isAscii (a ++ b)%string = isAscii a && isAscii b.
Proof. induction a as [|c a IH]; simpl; [reflexivity|]. now rewrite IH, andb_assoc. Qed.

Lemma isAscii_Occurs (a b : string) :
  Occurs a b -> isAscii b = true -> isAscii a = true.
Proof.
  intros (p & q & ->). rewrite !isAscii_app, !andb_true_iff. tauto.
Qed.

(** On ASCII text the predicate of the filter is the one with the
    character-wise lower-casing. *)
Lemma matchesQuery_ascii (q : string) (site : JobSite) :
  isAscii q = true -> asciiSite site = true ->
  matchesQuery toLowerCaseText q site = matchesQuery lowerAscii q site.
Proof.
  intros Aq As. unfold asciiSite in As.
  apply andb_true_iff in As as [As Au]. apply andb_true_iff in As as [An Ac].
  unfold matchesQuery. now rewrite !toLowerCaseText_ascii.
Qed.

Lemma filtered_ascii (q : string) (l : list JobSite) :
  isAscii q = true -> forallb asciiSite l = true ->
  filter (matchesQuery toLowerCaseText q) l = filter (matchesQuery lowerAscii q) l.
Proof.
  intros Aq Al. apply filter_ext_in. intros site I.
  rewrite forallb_forall in Al. now apply matchesQuery_ascii; [|apply Al].
Qed.

Lemma containsIgnoringCase_ascii (q text : string) :
  OccursIgnoringCase lowerAscii q text <-> ContainsIgnoringCase q text.
Proof.
  rewrite occursIgnoringCase_ascii. unfold ContainsIgnoringCase.
  split; intros (part & O & E); exists part; (split; [exact O|]);
    now apply lowerAscii_SameUpToCase.
Qed.

Lemma matches_ascii (q : string) (site : JobSite) :
  q <> ""%string -> isAscii q = true -> asciiSite site = true ->
  (matchesQuery toLowerCaseText q site = true <-> MatchesIgnoringCase q site).
Proof.
  intros NE Aq As. rewrite (matchesQuery_ascii q site Aq As).
  rewrite (matchesQuery_Matches lowerAscii q site NE).
  unfold Matches, MatchesIgnoringCase. now rewrite !containsIgnoringCase_ascii.
Qed.

Lemma filter_Selects_in {A : Type} (P : A -> Prop) (p : A -> bool) (l : list A) :
  (forall x, In x l -> (p x = true <-> P x)) -> Selects P l (filter p l).
Proof.
  induction l as [|x l IH]; intros Hp; simpl; [constructor|].
  assert (Hl : forall y, In y l -> (p y = true <-> P y))
    by (intros y I; apply Hp; now right).
  destruct (p x) eqn:E.
  - apply Selects_keep; [apply Hp; [now left | exact E] | auto].
  - apply Selects_drop; [|auto]. intros HP. apply Hp in HP; [congruence | now left].
Qed.

Lemma SameUpToCase_refl (s : string) : SameUpToCase s s.
Proof. induction s; constructor; [now left | assumption]. Qed.

(** C4, counterexample: the name of the site is a capital alpha and a
    capital sigma, the query is a capital sigma.  The name contains the
    query as it stands, but lower-cased it ends in a final sigma, which
    the lower-cased query (a small sigma) does not occur in: the site is
    not found. *)
Lemma final_sigma_site_is_missed :
  let s := mkState "all" [greekSite] capitalSigma [] in
  Occurs capitalSigma (site_name greekSite) /\
  toLowerCaseText (site_name greekSite) = alphaFinalSigma /\
  toLowerCaseText capitalSigma = smallSigma /\
  filteredSites toLowerCaseText s = [] /\
  ~ FilterIgnoresCase toLowerCaseText.
Proof.
  assert (O : Occurs capitalSigma (site_name greekSite)).
  { exists (ofBytes [206; 145]%nat), ""%string. reflexivity. }
  refine (conj O (conj eq_refl (conj eq_refl (conj eq_refl _)))).
  intros Claim.
  destruct (Claim (mkState "all" [greekSite] capitalSigma [])) as [WithQuery _].
  assert (NE : searchQuery (mkState "all" [greekSite] capitalSigma []) <> ""%string)
    by discriminate.
  destruct (WithQuery NE greekSite) as [_ Back].
  apply Back. split; [now left|].
  left. exists capitalSigma. split; [exact O | apply SameUpToCase_refl].
Qed.

(** C4, amended.  Whatever list of sites is loaded and whatever the
    query, the filter keeps, in their order, exactly the sites of which
    the lower-cased name, country or URL contains the lower-cased query
    ([lower] is the platform's [toLowerCase]), and with the empty query it
    returns the loaded list as it is.  On ASCII text, where lower-casing
    turns A to Z into a to z and nothing else, these are exactly the sites
    of which the name, the country or the URL has a part that is the query
    up to the case of the letters. *)
Theorem filteredSites_lowercased_exact (lower : string -> string) (s : State) :
  (searchQuery s <> ""%string ->
   Selects (Matches lower (searchQuery s)) (sites s) (filteredSites lower s)) /\
  (searchQuery s = ""%string -> filteredSites lower s = sites s) /\
  (searchQuery s <> ""%string -> AsciiText s ->
   Selects (MatchesIgnoringCase (searchQuery s)) (sites s)
           (filteredSites toLowerCaseText s) /\
   forall site, In site (filteredSites toLowerCaseText s) <->
                In site (sites s) /\ MatchesIgnoringCase (searchQuery s) site).
Proof.
  split; [intros NE; exact (proj1 (proj1 (filteredSites_exact lower s) NE))|].
  split; [exact (proj2 (filteredSites_exact lower s))|].
  intros NE [Aq As].
  assert (Sel : Selects (MatchesIgnoringCase (searchQuery s)) (sites s)
                        (filteredSites toLowerCaseText s)).
  { apply filter_Selects_in. intros site I. apply matches_ascii; auto.
    rewrite forallb_forall in As. now apply As. }
  split; [exact Sel | now apply Selects_In].
Qed.

Lemma filteredSites_lowercased_exact_witness :
  (searchQuery (directory "POLAND") <> ""%string /\ AsciiText (directory "POLAND")) /\
  filteredSites toLowerCaseText (directory "POLAND") = [eurojobs; pracuj] /\
  Selects (MatchesIgnoringCase "POLAND") [eurojobs; pracuj; stepstone]
          [eurojobs; pracuj] /\
  (searchQuery (directory "") = ""%string /\
   filteredSites toLowerCaseText (directory "") = [eurojobs; pracuj; stepstone]).
Proof.
  assert (NE : searchQuery (directory "POLAND") <> ""%string) by discriminate.
  assert (A : AsciiText (directory "POLAND")) by (split; reflexivity).
  split; [exact (conj NE A)|]. split; [reflexivity|]. split.
  - exact (proj1 (proj2 (proj2 (filteredSites_lowercased_exact
                                  toLowerCaseText (directory "POLAND"))) NE A)).
  - split; [reflexivity|].
    exact (proj1 (proj2 (filteredSites_lowercased_exact
                           toLowerCaseText (directory ""))) eq_refl).
Defined.

(** The query in capitals finds the sites of Poland, and the site whose
    name ends in a sigma is found by its whole name only. *)
Example greek_site_found_by_whole_name :
  filteredSites toLowerCaseText (mkState "all" [greekSite] alphaSigma [])
  = [greekSite].
Proof. reflexivity. Qed.

End SitesCaseFacts.

(** ** The sites directory: effects, countries, narrowing *)

Module SitesExtra.
Import JS SitesPage SitesEffects SitesCase JSFacts SitesFacts SitesCaseFacts.
#[local] Open Scope list_scope.

(** X8.  After a change of the selector to another value, the page sends
    exactly one job-sites request, and its country filter is the value of
    the URL's [country] parameter (no filter when the parameter is
    absent); a change to the value already selected sends nothing. *)
Theorem selection_request_follows_url (c : string) (s : State) :
  let s' := fst (onSelect c s) in
  (c <> selectedCountry s ->
   snd (onSelect c s) = [FetchJobSites (paramsGet "country" (searchParams s'))]) /\
  (c = selectedCountry s -> snd (onSelect c s) = []).
Proof.
  assert (Sel : selectedCountry (handleCountryChange c s) = c).
  { unfold handleCountryChange.
    now destruct (nonEmpty c && negb (c =? "all")%string). }
  unfold onSelect, onSelectionChange. cbn [fst snd]. rewrite Sel. split.
  - intros N. apply String.eqb_neq in N. rewrite N.
    unfold loadSites. rewrite Sel. unfold handleCountryChange.
    now destruct (nonEmpty c && negb (c =? "all")%string).
  - intros ->. now rewrite String.eqb_refl.
Qed.

Lemma selection_request_follows_url_witness :
  "Germany"%string <> selectedCountry (mount []) /\
  snd (onSelect "Germany" (mount [])) = [FetchJobSites (Some "Germany"%string)].
Proof.
  split; [discriminate|].
  apply (proj1 (selection_request_follows_url "Germany" (mount []))).
  discriminate.
Defined.

(** X9.  What the mount of the page requests.  Without a [country]
    parameter (or with an empty one) the unfiltered list of sites is
    requested twice, once by the effect that reads the parameter and once
    by the effect on the selection; with the parameter "all" it is
    requested once; with any other country the list of that country is
    requested once.  The popular countries are requested once in every
    case, and the mount never changes the selection it started with. *)
Theorem mount_requests (ps : SearchParams) :
  fst (onMount ps) = mount ps /\
  ((paramsGet "country" ps = None \/ paramsGet "country" ps = Some ""%string) ->
   snd (onMount ps)
   = [FetchJobSites None; FetchPopularCountries; FetchJobSites None]) /\
  (paramsGet "country" ps = Some "all"%string ->
   snd (onMount ps) = [FetchPopularCountries; FetchJobSites None]) /\
  (forall c, paramsGet "country" ps = Some c -> c <> ""%string -> c <> "all"%string ->
   snd (onMount ps) = [FetchPopularCountries; FetchJobSites (Some c)]).
Proof.
  unfold onMount, readCountryParam, onSelectionChange, loadSites, mount, initialSelected.
  cbn [selectedCountry searchParams fst snd].
  destruct (paramsGet "country" ps) as [c|] eqn:G.
  - destruct (nonEmpty c) eqn:NE.
    + rewrite String.eqb_refl. cbn [negb fst snd selectedCountry]. rewrite String.eqb_refl.
      apply nonEmpty_true in NE.
      split; [reflexivity|].
      split; [intros [H|H]; [discriminate | injection H as ->; now contradiction NE]|].
      split.
      * intros H. injection H as ->. reflexivity.
      * intros c' H _ NA. injection H as <-. apply String.eqb_neq in NA.
        apply nonEmpty_true in NE. now rewrite NE, NA.
    + apply nonEmpty_false in NE. subst c. cbn.
      split; [reflexivity|]. split; [reflexivity|].
      split; [discriminate|]. intros c' H N. injection H as <-. now contradiction N.
  - cbn. split; [reflexivity|]. split; [reflexivity|]. split; discriminate.
Qed.

Lemma mount_requests_witness :
  (paramsGet "country" [] = None /\
   snd (onMount [])
   = [FetchJobSites None; FetchPopularCountries; FetchJobSites None]) /\
  (paramsGet "country" [("country", "Poland")] = Some "Poland"%string /\
   snd (onMount [("country", "Poland")])
   = [FetchPopularCountries; FetchJobSites (Some "Poland"%string)])%string.
Proof.
  split; (split; [reflexivity|]).
  - apply (proj1 (proj2 (mount_requests []))). now left.
  - apply (proj2 (proj2 (proj2 (mount_requests [("country", "Poland")%string])))
             "Poland"%string); [reflexivity | discriminate | discriminate].
Defined.

(** X20.  The URL a selection writes restores that selection: mounting
    the page on the query string left by the selector's handler selects
    the same country again (and "all" after the empty selection), and the
    sites it then requests are those the selection requested. *)
Theorem selection_survives_reload (c : string) (s : State) :
  let ps := searchParams (handleCountryChange c s) in
  (c <> ""%string ->
   selectedCountry (mount ps) = c /\
   loadSites (mount ps) = loadSites (handleCountryChange c s)) /\
  (c = ""%string -> selectedCountry (mount ps) = "all"%string).
Proof.
  unfold handleCountryChange, mount, initialSelected, loadSites. split.
  - intros NE. apply nonEmpty_true in NE. rewrite NE. cbn [andb].
    destruct (String.eqb_spec c "all") as [->|NA]; [now cbn|].
    cbn. rewrite NE. cbn. rewrite NE. apply String.eqb_neq in NA. now rewrite NA.
  - intros ->. reflexivity.
Qed.

Lemma selection_survives_reload_witness :
  let ps := searchParams (handleCountryChange "Germany" (mount [])) in
  "Germany"%string <> ""%string /\
  selectedCountry (mount ps) = "Germany"%string /\
  loadSites (mount ps) = FetchJobSites (Some "Germany"%string).
Proof.
  split; [discriminate|].
  apply (proj1 (selection_survives_reload "Germany" (mount []))). discriminate.
Defined.

Lemma dedupe_In (x : string) (l : list string) : In x (dedupe l) <-> In x l.
Proof.
  induction l as [|a l IH]; simpl; [tauto|].
  rewrite filter_In, IH, negb_true_iff, String.eqb_neq.
  destruct (string_dec a x); intuition congruence.
Qed.

Lemma dedupe_NoDup (l : list string) : NoDup (dedupe l).
Proof.
  induction l as [|a l IH]; simpl; constructor.
  - rewrite filter_In, String.eqb_refl. intros [_ H]. discriminate.
  - now apply NoDup_filter.
Qed.

Lemma insertSorted_In (x a : string) (l : list string) :
  In x (insertSorted a l) <-> a = x \/ In x l.
Proof.
  induction l as [|y l IH]; simpl; [tauto|].
  destruct (String.leb a y); simpl; [tauto|]. rewrite IH. tauto.
Qed.

Lemma insertSorted_NoDup (a : string) (l : list string) :
  ~ In a l -> NoDup l -> NoDup (insertSorted a l).
Proof.
  induction l as [|y l IH]; intros NI ND; simpl.
  - constructor; [tauto | constructor].
  - destruct (String.leb a y); [now constructor|].
    inversion ND as [|? ? NIy NDl]; subst. constructor.
    + rewrite insertSorted_In. simpl in NI. intros [->|?]; tauto.
    + apply IH; [simpl in NI; tauto | exact NDl].
Qed.

Lemma insertSorted_HdRel (y a : string) (l : list string) :
  String.leb y a = true -> HdRel Ascending y l -> HdRel Ascending y (insertSorted a l).
Proof.
  intros Ya H. destruct l as [|z l]; simpl; [now constructor|].
  destruct (String.leb a z); constructor; [exact Ya|]. now inversion H.
Qed.

Lemma insertSorted_Sorted (a : string) (l : list string) :
  Sorted Ascending l -> Sorted Ascending (insertSorted a l).
Proof.
  induction l as [|y l IH]; intros S; simpl.
  - repeat constructor.
  - destruct (String.leb a y) eqn:E.
    + constructor; [exact S | now constructor].
    + inversion S as [|? ? Sl Hd]; subst. constructor; [now apply IH|].
      apply insertSorted_HdRel; [|exact Hd].
      destruct (String.leb_total a y) as [T|T]; [congruence | exact T].
Qed.

Lemma sort_In (x : string) (l : list string) : In x (sort l) <-> In x l.
Proof.
  induction l as [|a l IH]; simpl; [tauto|]. rewrite insertSorted_In, IH. tauto.
Qed.

Lemma sort_NoDup (l : list string) : NoDup l -> NoDup (sort l).
Proof.
  induction 1 as [|a l NI ND IH]; simpl; [constructor|].
  apply insertSorted_NoDup; [now rewrite sort_In | exact IH].
Qed.

Lemma sort_Sorted (l : list string) : Sorted Ascending (sort l).
Proof.
  induction l as [|a l IH]; simpl; [constructor | now apply insertSorted_Sorted].
Qed.

(** X10.  The selector's list of countries after [loadAllSites] loaded a
    non-empty list of sites: it is in ascending order, holds no country
    twice, and holds exactly the countries it held before together with
    the non-empty countries of the loaded sites.  When no site was loaded
    the list is left as it was. *)
Theorem merged_countries (prev : list string) (jobSites : list JobSite) :
  (jobSites <> [] ->
   Sorted Ascending (mergeCountries prev jobSites) /\
   NoDup (mergeCountries prev jobSites) /\
   forall c, In c (mergeCountries prev jobSites) <->
             In c prev \/
             (c <> ""%string /\ exists site, In site jobSites /\ country site = c)) /\
  (jobSites = [] -> mergeCountries prev jobSites = prev).
Proof.
  split; [|now intros ->].
  intros NE. destruct jobSites as [|site0 rest]; [contradiction|].
  unfold mergeCountries. set (sites := site0 :: rest).
  split; [apply sort_Sorted|]. split; [apply sort_NoDup, dedupe_NoDup|].
  intros c. unfold uniqueCountries.
  rewrite sort_In, dedupe_In, in_app_iff, sort_In, dedupe_In, filter_In,
          in_map_iff, nonEmpty_true.
  split.
  - intros [?|[(site & E & I) N]]; [now left | right]. split; [exact N | eauto].
  - intros [?|[N (site & I & E)]]; [now left | right]. split; [eauto | exact N].
Qed.

Example merged_countries_example :
  mergeCountries ["Spain"; "Germany"; "Spain"]
                 [stepstone; fromRomania; nowhere; eurojobs; pracuj]
  = ["Germany"; "Poland"; "Romania"; "Spain"]%string.
Proof. reflexivity. Qed.

Lemma merged_countries_witness :
  ([stepstone; fromRomania] <> [] /\
   Sorted Ascending (mergeCountries ["Spain"%string] [stepstone; fromRomania]) /\
   NoDup (mergeCountries ["Spain"%string] [stepstone; fromRomania])) /\
  mergeCountries ["Spain"%string] [] = ["Spain"%string].
Proof.
  assert (NE : [stepstone; fromRomania] <> []) by discriminate.
  destruct (proj1 (merged_countries ["Spain"%string] [stepstone; fromRomania]) NE)
    as (S & N & _).
  split; [exact (conj NE (conj S N))|].
  exact (proj2 (merged_countries ["Spain"%string] []) eq_refl).
Defined.

Lemma append_assoc (a b c : string) :
  ((a ++ b) ++ c = a ++ (b ++ c))%string.
Proof. induction a as [|x a IH]; simpl; congruence. Qed.

Lemma Occurs_trans (a b c : string) : Occurs a b -> Occurs b c -> Occurs a c.
Proof.
  intros (p1 & s1 & ->) (p2 & s2 & ->).
  exists (p2 ++ p1)%string, (s1 ++ s2)%string.
  now rewrite !append_assoc.
Qed.

Lemma filter_refines {A : Type} (p q : A -> bool) (l : list A) :
  (forall x, p x = true -> q x = true) -> filter p (filter q l) = filter p l.
Proof.
  intros Imp. induction l as [|x l IH]; simpl; [reflexivity|].
  destruct (q x) eqn:Q; simpl.
  - now rewrite IH.
  - destruct (p x) eqn:P; [|exact IH]. apply Imp in P. congruence.
Qed.

Lemma narrows_when_piecewise
  (lower : string -> string) (s : State) (q1 q2 : string) :
  (forall a b, lower (a ++ b)%string = (lower a ++ lower b)%string) ->
  Occurs q1 q2 ->
  let shown1 := filteredSites lower (setSearchQuery q1 s) in
  let shown2 := filteredSites lower (setSearchQuery q2 s) in
  (forall site, In site shown2 -> In site shown1) /\
  filteredSites lower (setSearchQuery q2 (setSites shown1 s)) = shown2.
Proof.
  intros Hom Occ.
  assert (Imp : forall site, matchesQuery lower q2 site = true ->
                             matchesQuery lower q1 site = true).
  { intros site M2.
    destruct (string_dec q1 "") as [->|N1]; [reflexivity|].
    assert (N2 : q2 <> ""%string).
    { intros ->. destruct Occ as (p & a & E). destruct p; [|discriminate].
      destruct q1; [now apply N1 | discriminate]. }
    apply (matchesQuery_Matches lower q1 site N1).
    apply (matchesQuery_Matches lower q2 site N2) in M2.
    assert (O12 : Occurs (lower q1) (lower q2)).
    { destruct Occ as (p & a & ->). exists (lower p), (lower a). now rewrite !Hom. }
    unfold Matches, OccursIgnoringCase in *.
    destruct M2 as [M|[M|M]]; [left | right; left | right; right];
      exact (Occurs_trans _ _ _ O12 M). }
  unfold filteredSites. cbn [searchQuery sites setSearchQuery setSites]. split.
  - intros site. rewrite !filter_In. intros [I M]. auto.
  - now apply filter_refines.
Qed.

Lemma forallb_filter {A : Type} (p f : A -> bool) (l : list A) :
  forallb p l = true -> forallb p (filter f l) = true.
Proof.
  rewrite !forallb_forall. intros H x I. apply filter_In in I. now apply H.
Qed.

(** X11.  On ASCII text, typing more narrows the result.  When the sites
    and the later query are ASCII text and the earlier query occurs in the
    later one, every site the later query shows was shown by the earlier
    one, and filtering the earlier result by the later query gives the
    later result. *)
Theorem longer_query_narrows (s : State) (q1 q2 : string) :
  forallb asciiSite (sites s) = true -> isAscii q2 = true ->
  Occurs q1 q2 ->
  let shown1 := filteredSites toLowerCaseText (setSearchQuery q1 s) in
  let shown2 := filteredSites toLowerCaseText (setSearchQuery q2 s) in
  (forall site, In site shown2 -> In site shown1) /\
  filteredSites toLowerCaseText (setSearchQuery q2 (setSites shown1 s)) = shown2.
Proof.
  intros As A2 Occ.
  pose proof (isAscii_Occurs q1 q2 Occ A2) as A1.
  pose proof (narrows_when_piecewise lowerAscii s q1 q2 lowerAscii_app Occ) as N.
  unfold filteredSites in *.
  cbn [searchQuery sites setSearchQuery setSites] in *.
  rewrite (filtered_ascii q1 (sites s) A1 As), (filtered_ascii q2 (sites s) A2 As).
  rewrite (filtered_ascii q2 _ A2 (forallb_filter _ (matchesQuery lowerAscii q1) _ As)).
  exact N.
Qed.

Lemma longer_query_narrows_witness :
  (forallb asciiSite (sites (directory "")) = true /\ isAscii "POLAND" = true /\
   Occurs "POL" "POLAND") /\
  filteredSites toLowerCaseText (directory "POL") = [eurojobs; pracuj] /\
  filteredSites toLowerCaseText
    (setSearchQuery "POLAND"
       (setSites (filteredSites toLowerCaseText (directory "POL")) (directory "POL")))
  = filteredSites toLowerCaseText (directory "POLAND").
Proof.
  assert (O : Occurs "POL" "POLAND") by now exists ""%string, "AND"%string.
  split; [exact (conj eq_refl (conj eq_refl O))|]. split; [reflexivity|].
  exact (proj2 (longer_query_narrows (directory "") "POL" "POLAND"
                  eq_refl eq_refl O)).
Defined.

(** Beyond ASCII the narrowing can fail: a capital sigma occurs in the
    name that ends in one, yet the longer query finds the site and the
    shorter one does not. *)
Example narrowing_fails_at_final_sigma :
  Occurs capitalSigma alphaSigma /\
  filteredSites toLowerCaseText (mkState "all" [greekSite] alphaSigma []) = [greekSite] /\
  filteredSites toLowerCaseText (mkState "all" [greekSite] capitalSigma []) = [].
Proof.
  split; [|split; reflexivity]. now exists (ofBytes [206; 145]%nat), ""%string.
Qed.

End SitesExtra.

(** ** The images of the countries *)

Module CountryImagesFacts.
Import JS CountryImages JSFacts.
#[local] Open Scope list_scope.

Section Lookup.

Variable lower : string -> string.
Variable inherited : string -> value.
Variable germanImage romaniaImage : string.

#[local] Abbreviation image := (getCountryImage lower inherited germanImage romaniaImage).
#[local] Abbreviation hasImage := (hasCountryImage lower inherited germanImage romaniaImage).
#[local] Abbreviation entries := (countryImageMap germanImage romaniaImage).

(** X12.  The lookup ignores case.  For a name that differs only in case
    from a country of the map whose image is not empty, and that is no
    property of [Object.prototype], the image of that country is returned,
    provided the lower-cased names of the two countries differ. *)
Theorem image_lookup_ignores_case (name key img : string) :
  lower "Germany" <> lower "Romania" ->
  In (key, img) entries -> img <> ""%string ->
  name <> ""%string -> lower name = lower key ->
  truthy (inherited name) = false ->
  image name = Str img /\ hasImage name = true.
Proof.
  intros Distinct Hin Himg Hname Hlow Hinh.
  assert (G : image name = Str img).
  { unfold getCountryImage, member, countryImageMap in *.
    apply nonEmpty_true in Hname. rewrite Hname. cbn [negb own map fst find].
    apply nonEmpty_true in Himg.
    destruct Hin as [E|[E|[]]]; injection E as <- <-.
    - (* the key is Germany *)
      destruct (String.eqb_spec name "Germany") as [->|N1].
      + cbn [truthy]. now rewrite Himg.
      + destruct (String.eqb_spec name "Romania") as [->|N2];
          [now contradiction Distinct|].
        rewrite Hinh, Hlow, String.eqb_refl. reflexivity.
    - (* the key is Romania *)
      destruct (String.eqb_spec name "Germany") as [->|N1];
        [now contradiction Distinct|].
      destruct (String.eqb_spec name "Romania") as [->|N2].
      + cbn [truthy]. now rewrite Himg.
      + rewrite Hinh, Hlow.
        destruct (String.eqb_spec (lower "Germany") (lower "Romania")) as [E|_];
          [now contradiction Distinct|].
        rewrite String.eqb_refl. reflexivity. }
  split; [exact G|]. unfold hasCountryImage. now rewrite G.
Qed.

(** X13.  No image: the empty name, and every name that matches neither
    country when case is ignored and is no property of
    [Object.prototype], get [null], and [hasCountryImage] says no. *)
Theorem image_of_unknown_country (name : string) :
  (name = ""%string \/
   (lower name <> lower "Germany" /\ lower name <> lower "Romania" /\
    truthy (inherited name) = false)) ->
  image name = Null /\ hasImage name = false.
Proof.
  intros H.
  assert (G : image name = Null).
  { unfold getCountryImage, member, countryImageMap.
    destruct H as [->|(NG & NR & Hinh)]; [reflexivity|].
    destruct (nonEmpty name); [|reflexivity]. cbn [negb own map fst find].
    destruct (String.eqb_spec name "Germany") as [->|_]; [now contradiction NG|].
    destruct (String.eqb_spec name "Romania") as [->|_]; [now contradiction NR|].
    rewrite Hinh.
    destruct (String.eqb_spec (lower "Germany") (lower name)) as [E|_];
      [now contradiction NG|].
    destruct (String.eqb_spec (lower "Romania") (lower name)) as [E|_];
      [now contradiction NR|].
    reflexivity. }
  split; [exact G|]. unfold hasCountryImage. now rewrite G.
Qed.

(** X14.  A name that is a property of [Object.prototype] (such as
    "constructor") is taken for a country with an image: the lookup
    answers with that property, which is no image URL, and
    [hasCountryImage] says yes. *)
Theorem inherited_property_taken_for_image (name : string) :
  name <> ""%string -> name <> "Germany"%string -> name <> "Romania"%string ->
  truthy (inherited name) = true ->
  image name = inherited name /\ hasImage name = true.
Proof.
  intros Hname NG NR Hinh.
  assert (G : image name = inherited name).
  { unfold getCountryImage, member, countryImageMap.
    apply nonEmpty_true in Hname. rewrite Hname. cbn [negb own].
    apply String.eqb_neq in NG, NR. now rewrite NG, NR, Hinh. }
  split; [exact G|]. unfold hasCountryImage. rewrite G.
  now destruct (inherited name).
Qed.

End Lookup.

Lemma image_lookup_ignores_case_witness :
  getCountryImage SitesPage.lowerAscii inheritedConstructor
                  "/assets/german.jpg" "/assets/romania.jpg" "ROMANIA"
  = Str "/assets/romania.jpg".
Proof.
  apply (image_lookup_ignores_case SitesPage.lowerAscii inheritedConstructor
           "/assets/german.jpg" "/assets/romania.jpg"
           "ROMANIA" "Romania" "/assets/romania.jpg");
    try discriminate; try reflexivity.
  right. now left.
Defined.

Lemma image_of_unknown_country_witness :
  getCountryImage SitesPage.lowerAscii inheritedConstructor
                  "/assets/german.jpg" "/assets/romania.jpg" "Poland" = Null /\
  hasCountryImage SitesPage.lowerAscii inheritedConstructor
                  "/assets/german.jpg" "/assets/romania.jpg" "" = false.
Proof.
  split.
  - apply (image_of_unknown_country SitesPage.lowerAscii inheritedConstructor
             "/assets/german.jpg" "/assets/romania.jpg" "Poland").
    right. repeat split; discriminate.
  - apply (image_of_unknown_country SitesPage.lowerAscii inheritedConstructor
             "/assets/german.jpg" "/assets/romania.jpg" "").
    now left.
Defined.

Lemma inherited_property_taken_for_image_witness :
  getCountryImage SitesPage.lowerAscii inheritedConstructor
                  "/assets/german.jpg" "/assets/romania.jpg" "constructor"
  = Obj [] /\
  hasCountryImage SitesPage.lowerAscii inheritedConstructor
                  "/assets/german.jpg" "/assets/romania.jpg" "constructor" = true.
Proof.
  apply (inherited_property_taken_for_image SitesPage.lowerAscii
           inheritedConstructor "/assets/german.jpg" "/assets/romania.jpg"
           "constructor"); try discriminate; reflexivity.
Defined.

End CountryImagesFacts.

(** ** The dashboard: switching to all countries *)

Module DashboardExtra.
Import JS Dashboard JSFacts DashboardFacts.

(** X15.  A click on the toggle from the curated view never touches the
    curated list, the user's country or the page, and ends with nothing
    loading.  When the request is rejected (or resolves to [null]) the
    curated view stays.  When it resolves to anything else the view
    switches to all countries, also for a response that is not [ok]: the
    list shown is then the one of all countries loaded before (none on
    first use). *)
Theorem view_all_keeps_curated (enc : string -> string) (o : Outcome) (s : State) :
  showAllCountries s = false ->
  let s' := handleViewAllCountries enc o s in
  sites s' = sites s /\ country s' = country s /\
  location s' = location s /\ loading s' = false /\
  ((o = Rejected \/ exists r, o = Resolved r /\ get r "ok" = None) ->
   showAllCountries s' = false /\ allSites s' = allSites s /\
   displaySites s' = sites s) /\
  (forall r okv, o = Resolved r -> get r "ok" = Some okv ->
   showAllCountries s' = true /\
   (truthy okv = false -> displaySites s' = allSites s)).
Proof.
  intros Off. unfold handleViewAllCountries, viewAll_try, tryCatch, bind, displaySites.
  rewrite Off. destruct o as [|r].
  - cbn. rewrite Off. repeat split; discriminate.
  - destruct (get r "ok") as [okv|] eqn:G.
    + assert (Shape : exists all,
               (if truthy okv
                then match viewAllParse r with
                     | Some jobSites => Some (setAllSites jobSites (setLoading true s))
                     | None => None
                     end
                else Some (setLoading true s))
               = Some (setAllSites all (setLoading true s)) /\
               (truthy okv = false -> all = allSites s)).
      { destruct (truthy okv).
        - destruct (viewAllParse_total _ _ _ G) as [v ->]. exists v.
          split; [reflexivity | discriminate].
        - exists (allSites s). split; [now destruct s | reflexivity]. }
      destruct Shape as (all & -> & Hall). cbn.
      repeat (split; [reflexivity|]). split.
      * intros [H|(r' & H & N)]; [discriminate|]. injection H as <-. congruence.
      * intros r' okv' H G'. injection H as <-. split; [reflexivity|].
        intros T. apply Hall. congruence.
    + cbn. rewrite Off. repeat (split; [reflexivity|]). split; [auto|].
      intros r' okv' H G'. injection H as <-. congruence.
Qed.

Lemma view_all_keeps_curated_witness :
  let notOk := Obj [("ok", Bool false); ("status", Num 500)] in
  let s' := handleViewAllCountries encodeUnreserved (Resolved notOk) mounted in
  showAllCountries mounted = false /\
  sites s' = sites mounted /\
  showAllCountries s' = true /\ displaySites s' = Arr [].
Proof.
  pose proof (view_all_keeps_curated encodeUnreserved
                (Resolved (Obj [("ok", Bool false); ("status", Num 500)]))
                mounted eq_refl) as (S & _ & _ & _ & _ & NotOk).
  destruct (NotOk _ (Bool false) eq_refl eq_refl) as (Flag & Shown).
  split; [reflexivity|]. split; [exact S|]. split; [exact Flag|].
  exact (Shown eq_refl).
Defined.

End DashboardExtra.

(** ** The contact page under its events *)

Module ContactExtra.
Import JS ContactPage ContactEvents JSFacts ContactFacts.
#[local] Open Scope list_scope.

Lemma page_run_snoc (evs : list Event) (e : Event) (p : Page) :
  run (evs ++ [e]) p = handle e (run evs p).
Proof. unfold run. now rewrite fold_left_app. Qed.

(** Every settled request either succeeded or failed. *)
Lemma ok_or_Failed (o : FetchOutcome) :
  (exists r, o = FetchResolved r /\ ok r = true) \/ Failed o.
Proof.
  destruct o as [|r]; [now right|].
  destruct (ok r) eqn:E; [left; eauto | right].
  simpl. intros H. apply ok_2xx in H. congruence.
Qed.

Lemma handleChange_flags (f : Field) (v : string) (s : State) :
  loading (handleChange f v s) = loading s /\
  success (handleChange f v s) = success s /\
  error (handleChange f v s) = error s.
Proof. now destruct f. Qed.

Lemma handle_steady (e : Event) (p : Page) : Steady p -> Steady (handle e p).
Proof.
  intros (L & T & B). unfold Steady.
  destruct e as [f v| |o|]; cbn [handle].
  - cbn. destruct (handleChange_flags f v (ui (world p))) as (-> & _ & _). auto.
  - destruct (canSubmit (world p)) eqn:C; [|exact (conj L (conj T B))].
    cbn. split; [reflexivity|]. split; [exact T|].
    intros b H. injection H as <-. unfold canSubmit in C.
    now apply andb_true_iff in C.
  - destruct (inflight p) as [b|] eqn:I; [|rewrite I; exact (conj L (conj T B))].
    destruct (ok_or_Failed o) as [(r & -> & Hok)|F].
    + rewrite (settle_success r _ Hok). cbn. split; [reflexivity|].
      split; [|discriminate]. apply Forall_app. split; [exact T|].
      constructor; [split; reflexivity | constructor].
    + destruct (settle_failure o (world p) F) as (msg & _ & ->). cbn.
      split; [reflexivity|]. split; [exact T | discriminate].
  - unfold fire. destruct (timers (world p)) as [|t rest] eqn:Ts.
    + cbn. rewrite Ts. exact (conj L (conj T B)).
    + inversion T as [|? ? [_ Cb] Trest]; subst. cbn. rewrite Cb. cbn.
      exact (conj L (conj Trest B)).
Qed.

Lemma run_steady (evs : list Event) : Steady (run evs initialPage).
Proof.
  induction evs as [|e evs IH] using rev_ind.
  - unfold Steady. cbn. repeat split; [constructor | discriminate].
  - rewrite page_run_snoc. now apply handle_steady.
Qed.

(** X16.  At most one contact request is in flight, and it carries a
    filled-in form.  In every state the page can reach, the loading flag
    is up exactly while a request is pending; the body of a pending
    request has name, email and message non-empty; while a request is
    pending another submission is not taken, and while none is pending a
    settling response is ignored. *)
Theorem one_message_in_flight (evs : list Event) (o : FetchOutcome) :
  let p := run evs initialPage in
  (forall body, inflight p = Some body ->
     loading (ui (world p)) = true /\
     requiredPopulated body = true /\
     handle Submit p = p) /\
  (inflight p = None ->
     loading (ui (world p)) = false /\ handle (Settled o) p = p).
Proof.
  destruct (run_steady evs) as (L & _ & B). split.
  - intros body I. rewrite I in L. split; [exact L|]. split; [exact (B body I)|].
    cbn [handle]. unfold canSubmit. now rewrite L.
  - intros I. rewrite I in L. split; [exact L|]. cbn [handle]. now rewrite I.
Qed.

Lemma one_message_in_flight_witness :
  let p := run [Change FName "Abebe"; Change FEmail "abebe@example.org";
                Change FMessage "Hello"; Submit] initialPage in
  inflight p = Some (mkForm "Abebe" "abebe@example.org" "" "Hello") /\
  loading (ui (world p)) = true /\
  requiredPopulated (mkForm "Abebe" "abebe@example.org" "" "Hello") = true /\
  handle Submit p = p.
Proof.
  split; [reflexivity|].
  apply (proj1 (one_message_in_flight
                  [Change FName "Abebe"; Change FEmail "abebe@example.org";
                   Change FMessage "Hello"; Submit] FetchRejected)).
  reflexivity.
Defined.

(** X17.  The timers of the page only ever take the success banner
    down.  In every state the page can reach, every pending timer has a
    delay of 5000 ms, and when a timer runs the form, the error and the
    loading flag are as before. *)
Theorem timers_only_dismiss (evs : list Event) :
  let w := world (run evs initialPage) in
  Forall Dismissal (timers w) /\
  formData (ui (fire w)) = formData (ui w) /\
  error (ui (fire w)) = error (ui w) /\
  loading (ui (fire w)) = loading (ui w) /\
  (timers w <> [] -> success (ui (fire w)) = false).
Proof.
  destruct (run_steady evs) as (_ & T & _). cbn zeta. split; [exact T|].
  unfold fire. destruct (timers (world (run evs initialPage))) as [|t rest].
  - repeat split. intros N. now contradiction N.
  - inversion T as [|? ? [_ Cb] _]; subst. cbn. rewrite Cb. repeat split.
Qed.

Lemma timers_only_dismiss_witness :
  let w := world (run [Change FName "Abebe"; Change FEmail "abebe@example.org";
                       Change FMessage "Hello"; Submit;
                       Settled (FetchResolved (mkResponse 200 None));
                       Change FName "Bikila"] initialPage) in
  (timers w <> [] /\ success (ui w) = true) /\
  success (ui (fire w)) = false /\
  formData (ui (fire w)) = formData (ui w).
Proof.
  pose proof (timers_only_dismiss
                [Change FName "Abebe"; Change FEmail "abebe@example.org";
                 Change FMessage "Hello"; Submit;
                 Settled (FetchResolved (mkResponse 200 None));
                 Change FName "Bikila"]) as (_ & F & _ & _ & D).
  assert (N : timers (world (run [Change FName "Abebe"; Change FEmail "abebe@example.org";
                       Change FMessage "Hello"; Submit;
                       Settled (FetchResolved (mkResponse 200 None));
                       Change FName "Bikila"] initialPage)) <> []) by discriminate.
  split; [split; [exact N | reflexivity]|]. split; [exact (D N) | exact F].
Defined.

Lemma quiet_keeps_error (e : Event) (p : Page) :
  quiet e = true -> Steady p ->
  error (ui (world (handle e p))) = error (ui (world p)) /\
  inflight (handle e p) = inflight p.
Proof.
  intros Q (_ & T & _). destruct e as [f v| |o|]; try discriminate; cbn [handle].
  - cbn. now destruct (handleChange_flags f v (ui (world p))) as (_ & _ & ->).
  - unfold fire. destruct (timers (world p)) as [|t rest]; [auto|].
    inversion T as [|? ? [_ Cb] _]; subst. cbn. now rewrite Cb.
Qed.

Lemma quiet_run (evs : list Event) (p : Page) :
  forallb quiet evs = true -> Steady p ->
  Steady (run evs p) /\
  error (ui (world (run evs p))) = error (ui (world p)) /\
  inflight (run evs p) = inflight p.
Proof.
  induction evs as [|e evs IH] using rev_ind; intros Q S; [auto|].
  rewrite forallb_app in Q. apply andb_true_iff in Q as [Q1 Q2].
  simpl in Q2. rewrite andb_true_r in Q2.
  destruct (IH Q1 S) as (S' & E & I). rewrite page_run_snoc.
  destruct (quiet_keeps_error e (run evs p) Q2 S') as (E' & I').
  split; [now apply handle_steady|]. split; congruence.
Qed.

Lemma submit_clears_error (p : Page) :
  canSubmit (world p) = true -> error (ui (world (handle Submit p))) = Null.
Proof. intros C. cbn [handle]. now rewrite C. Qed.

(** X18.  The error banner is persistent.  After a failed submission the
    error stays up through everything the user types and through every
    timer that runs, with the submit button free again; it goes away when
    the next submission is taken. *)
Theorem error_stays_until_resubmission
  (before after : list Event) (o : FetchOutcome) :
  Failed o -> inflight (run before initialPage) <> None ->
  forallb quiet after = true ->
  let p := run after (handle (Settled o) (run before initialPage)) in
  truthy (error (ui (world p))) = true /\
  loading (ui (world p)) = false /\
  (canSubmit (world p) = true -> error (ui (world (handle Submit p))) = Null).
Proof.
  intros F I Q.
  pose proof (run_steady before) as S0.
  assert (S1 : Steady (handle (Settled o) (run before initialPage)))
    by now apply handle_steady.
  destruct (quiet_run after _ Q S1) as (S2 & E & I2).
  cbn zeta. rewrite E.
  assert (Settle : truthy (error (ui (world (handle (Settled o) (run before initialPage))))) = true /\
                   inflight (handle (Settled o) (run before initialPage)) = None).
  { cbn [handle]. destruct (inflight (run before initialPage)) as [b|];
      [|now contradiction I].
    destruct (settle_failure o (world (run before initialPage)) F) as (msg & T & ->).
    split; [exact T | reflexivity]. }
  destruct Settle as (T & N). split; [exact T|].
  destruct S2 as (L & _ & _). rewrite I2, N in L. split; [exact L|].
  apply submit_clears_error.
Qed.

Lemma error_stays_until_resubmission_witness :
  let o := FetchResolved (mkResponse 500 None) in
  let before := [Change FName "Abebe"; Change FEmail "abebe@example.org";
                 Change FMessage "Hello"; Submit] in
  let after := [Change FMessage "Hello again"; TimerFires] in
  let p := run after (handle (Settled o) (run before initialPage)) in
  Failed o /\ inflight (run before initialPage) <> None /\
  error (ui (world p)) = Str networkError /\
  error (ui (world (handle Submit p))) = Null.
Proof.
  assert (F : Failed (FetchResolved (mkResponse 500 None))).
  { simpl. intros [_ H]. now apply H. }
  assert (I : inflight (run [Change FName "Abebe"; Change FEmail "abebe@example.org";
                             Change FMessage "Hello"; Submit] initialPage) <> None)
    by discriminate.
  pose proof (error_stays_until_resubmission
                [Change FName "Abebe"; Change FEmail "abebe@example.org";
                 Change FMessage "Hello"; Submit]
                [Change FMessage "Hello again"; TimerFires]
                (FetchResolved (mkResponse 500 None)) F I eq_refl)
    as (_ & _ & Resubmit).
  split; [exact F|]. split; [exact I|]. split; [reflexivity|].
  apply Resubmit. reflexivity.
Defined.

(** X19.  Timers are never cancelled: after two submissions that both
    succeed, two dismissal timers are pending, and when the first of them
    runs it takes down the banner of the second submission while that
    submission's own timer is still pending. *)
Theorem earlier_timer_dismisses_later_banner (w : World) (r1 r2 : Response) :
  200 <= status r1 <= 299 -> 200 <= status r2 <= 299 -> timers w = [] ->
  let w2 := handleSubmit (FetchResolved r2) (handleSubmit (FetchResolved r1) w) in
  success (ui w2) = true /\ List.length (timers w2) = 2%nat /\
  success (ui (fire w2)) = false /\ List.length (timers (fire w2)) = 1%nat.
Proof.
  intros H1 H2 T. apply ok_2xx in H1, H2. unfold handleSubmit.
  rewrite !settle_success by assumption. cbn. rewrite T. cbn. repeat split.
Qed.

Lemma earlier_timer_dismisses_later_banner_witness :
  let r := mkResponse 200 (Some (Obj [])) in
  let w2 := handleSubmit (FetchResolved r) (handleSubmit (FetchResolved r) enquiry) in
  (200 <= status r <= 299 /\ timers enquiry = []) /\
  success (ui w2) = true /\ success (ui (fire w2)) = false /\
  List.length (timers (fire w2)) = 1%nat.
Proof.
  assert (H : 200 <= 200 <= 299) by (split; discriminate).
  pose proof (earlier_timer_dismisses_later_banner enquiry
                (mkResponse 200 (Some (Obj []))) (mkResponse 200 (Some (Obj [])))
                H H eq_refl) as (S & _ & D & L).
  split; [split; [exact H | reflexivity]|]. exact (conj S (conj D L)).
Defined.

End ContactExtra.
